(** * pdf_costructor.py: a shallow embedding and its verified properties

    The Python module renders three HTML templates (contratto, garanzia,
    carta) to PDF, draws a 25x35 debugging grid into the HTML, and, for the
    contract, stamps two images on the rendered pages.

    Conventions of the embedding:
    - Python [float] is IEEE binary64, embedded as Rocq's primitive [float];
      [+ - * /] are the kernel's correctly rounded operations.
    - Python exceptions are values of [exn]; a call that may raise returns
      [res A].
    - [str] is [string], the text as its UTF-8 bytes; a [dict] with string
      keys is a [gmap string _].
    - What the module asks of its collaborators (the file system, WeasyPrint,
      PIL, ReportLab, PyPDF2) is gathered in records of functions, so every
      definition stays executable once a collaborator is supplied. *)

From Stdlib Require Import ZArith QArith Qround Floats Ascii String List Lia.
From stdpp Require Import gmap strings list pretty.

Set Warnings "-inexact-float".

Local Open Scope Z_scope.

(** ** Exceptions and fallible results *)

Inductive exn : Type :=
| ZeroDivisionError
| OverflowError
| KeyError (key : string)
| TypeError
| IndexError
| FileNotFoundError
| OtherError (what : string).

Inductive res (A : Type) : Type :=
| Ok (a : A)
| Raise (e : exn).
Arguments Ok {A} a.
Arguments Raise {A} e.

Definition res_bind {A B : Type} (m : res A) (k : A -> res B) : res B :=
  match m with
  | Ok a => k a
  | Raise e => Raise e
  end.

Notation "'let*' x ':=' m 'in' k" := (res_bind m (fun x => k))
  (at level 10, x pattern, m at level 100, k at level 200).

(** ** Python's float operations *)

Module PyFloat.

(** [float(n)] for a Python [int]: the nearest double, ties to even. *)
Definition float_of_Z (z : Z) : float :=
  SF2Prim (binary_normalize prec emax z 0 false).

(** An [int] operand of a float operation is converted first; CPython raises
    when the integer is beyond the range of doubles. *)
Definition of_int (z : Z) : res float :=
  let f := float_of_Z z in
  if PrimFloat.is_infinity f then Raise OverflowError else Ok f.

(** [x / y] on floats: division by either zero raises. *)
Definition truediv (x y : float) : res float :=
  if PrimFloat.eqb y 0 then Raise ZeroDivisionError else Ok (x / y)%float.

(** The integer nearest to [k * m * 2^e], ties to the even integer. *)
Definition scaled_half_even (k : Z) (m : positive) (e : Z) : Z :=
  let n := k * Z.pos m in
  if 0 <=? e then n * 2 ^ e
  else
    let d := 2 ^ (- e) in
    let q := n / d in
    match (2 * (n mod d)) ?= d with
    | Lt => q
    | Gt => q + 1
    | Eq => if Z.even q then q else q + 1
    end.

(** The integer nearest to [k * m * 2^e], ties upwards (round-half-up on a
    magnitude). *)
Definition scaled_half_up (k : Z) (m : positive) (e : Z) : Z :=
  let n := k * Z.pos m in
  if 0 <=? e then n * 2 ^ e
  else
    let d := 2 ^ (- e) in
    let q := n / d in
    match (2 * (n mod d)) ?= d with
    | Lt => q
    | _ => q + 1
    end.

(** The double nearest to [(-1)^s * h / k]: what [strtod] returns for the
    decimal string of [h] with the point shifted. *)
Definition nearest_ratio (s : bool) (h : Z) (k : positive) : float :=
  match h with
  | Zpos p => SF2Prim (SFdiv prec emax (S754_finite s p 0) (S754_finite false k 0))
  | _ => if s then (-0)%float else 0%float
  end.

(** [round(x, 2)] on a float.  CPython ([float___round___impl],
    [double_round]) prints the exact binary value of [x] with two digits
    after the point, correctly rounded with ties to even ([_Py_dg_dtoa],
    mode 3), and reads the string back ([_Py_dg_strtod]).  Zeros, NaN and
    the infinities round to themselves. *)
Definition round2 (x : float) : float :=
  match Prim2SF x with
  | S754_finite s m e => nearest_ratio s (scaled_half_even 100 m e) 100
  | _ => x
  end.

(** The same with ties going up: rounding to two places by round-half-up. *)
Definition round2_half_up (x : float) : float :=
  match Prim2SF x with
  | S754_finite s m e => nearest_ratio s (scaled_half_up 100 m e) 100
  | _ => x
  end.

(** [x] lies exactly half-way between two hundredths. *)
Definition is_tie2 (x : float) : bool :=
  match Prim2SF x with
  | S754_finite _ m e =>
      if 0 <=? e then false
      else 2 * ((100 * Z.pos m) mod 2 ^ (- e)) =? 2 ^ (- e)
  | _ => false
  end.

(** C's [pow(x, n)] for a finite [x = m * 2^e > 0] and an integer [n], taken
    to be correctly rounded: the double nearest to the exact power. *)
Definition pow_pos (m : positive) (e : Z) (n : Z) : float :=
  if 0 <=? n then
    SF2Prim (binary_normalize prec emax (Z.pos m ^ n) (e * n) false)
  else
    SF2Prim (SFdiv prec emax (S754_finite false 1 0)
               (S754_finite false (m ^ Z.to_pos (- n)) (e * - n))).

(** [x ** n] for a float [x] and an [int] [n], after CPython's [float_pow]:
    the special cases are decided before libm is called, and a finite
    operand whose power overflows raises.  The exponent is used as the
    double it converts to, which is [n] itself up to 2^53. *)
Definition pow (x : float) (n : Z) : res float :=
  if n =? 0 then Ok 1%float
  else
    match Prim2SF x with
    | S754_nan => Ok x
    | S754_infinity s =>
        if 0 <? n then Ok (if Z.odd n then x else PrimFloat.abs x)
        else Ok (if Z.odd n && s then (-0)%float else 0%float)
    | S754_zero s =>
        if n <? 0 then Raise ZeroDivisionError
        else Ok (if Z.odd n then x else 0%float)
    | S754_finite s m e =>
        let negate := s && Z.odd n in
        let p := pow_pos m e n in
        if PrimFloat.is_infinity p then Raise OverflowError
        else Ok (if negate then (- p)%float else p)
    end.

End PyFloat.

(** ** Financial calculator *)

Module Money.
Import PyFloat.

(** [monthly_payment(amount, months, annual_rate)], lines 23-30. *)
Definition monthly_payment (amount : float) (months : Z) (annual_rate : float)
  : res float :=
  let r := ((annual_rate / 100) / 12)%float in
  if PrimFloat.eqb r 0 then
    let* m := of_int months in
    let* q := truediv amount m in
    Ok (round2 q)
  else
    let* p := pow (1 + r) months in
    let num := (amount * r * p)%float in
    let* p' := pow (1 + r) months in
    let den := (p' - 1)%float in
    let* q := truediv num den in
    Ok (round2 q).

(** The contract of the specification, section 4.1, on the same doubles:
    the zero-rate payment is the quotient rounded half-up. *)
Definition monthlyPayment_zero_rate_spec (principal : float) (months : Z)
  : res float :=
  let* m := of_int months in
  let* q := truediv principal m in
  Ok (round2_half_up q).

(** The contract of section 4.1 for a non-zero rate: the annuity formula,
    rounded half-up. *)
Definition monthlyPayment_annuity_spec (principal : float) (months : Z)
    (annualRatePercent : float) : res float :=
  let monthlyRate := ((annualRatePercent / 100) / 12)%float in
  let* p := pow (1 + monthlyRate) months in
  let* q := truediv (principal * monthlyRate * p) (p - 1) in
  Ok (round2_half_up q).

(** The annuity formula over the rationals, and its value in hundredths
    rounded half-up: the golden value is checked against it. *)
Definition annuity_exact (principal : Q) (months : Z) (annualRatePercent : Q) : Q :=
  let r := (annualRatePercent / 100 / 12)%Q in
  (principal * r * (1 + r) ^ months / ((1 + r) ^ months - 1))%Q.

Definition hundredths_half_up (q : Q) : Z := Qfloor (q * 100 + (1 # 2))%Q.
Definition hundredths_half_even (q : Q) : Z :=
  let f := Qfloor (q * 100)%Q in
  match Qcompare (q * 100 - inject_Z f)%Q (1 # 2) with
  | Lt => f
  | Gt => f + 1
  | Eq => if Z.even f then f else f + 1
  end.

End Money.


(** ** The 25x35 grid *)

Module Grid.
Import PyFloat.

(** The double quote, for the attribute values of the markup. *)
Definition dq : string := String "034"%char EmptyString.

(** [str(n)] for a non-negative [int]. *)
Definition str_of_nat (n : nat) : string := pretty (N.of_nat n).

(** Three digits after the point, zero-padded. *)
Definition pad3 (n : Z) : string :=
  let d := pretty (Z.to_N n) in
  if n <? 10 then "00" +:+ d else if n <? 100 then "0" +:+ d else d.

(** [f'{x:.3f}']: the exact value of the double printed with three digits
    after the point, correctly rounded, ties to even. *)
Definition fmt_3f (x : float) : string :=
  match Prim2SF x with
  | S754_nan => "nan"
  | S754_infinity s => if s then "-inf" else "inf"
  | S754_zero s => if s then "-0.000" else "0.000"
  | S754_finite s m e =>
      let t := scaled_half_even 1000 m e in
      (if s then "-" else "") +:+ pretty (Z.to_N (t / 1000)) +:+ "." +:+ pad3 (t mod 1000)
  end.

Definition page_w_mm : Z := 210.
Definition page_h_mm : Z := 297.

Section Enumeration.
(** The two literals of the source, 25 and 35. *)
Variables (columns rows : nat).

Definition cell_w_mm : float := (float_of_Z page_w_mm / float_of_Z (Z.of_nat columns))%float.
Definition cell_h_mm : float := (float_of_Z page_h_mm / float_of_Z (Z.of_nat rows))%float.

(** A [for i in range(n)] loop threading its state. *)
Definition for_range {S : Type} (n : nat) (body : nat -> S -> S) (s : S) : S :=
  foldl (fun s i => body i s) s (seq 0 n).

Definition nat_float (n : nat) : float := float_of_Z (Z.of_nat n).

(** The f-string of lines 123-125. *)
Definition grid_cell (r c : nat) : string :=
  let x := (nat_float c * cell_w_mm)%float in
  let y := (nat_float r * cell_h_mm)%float in
  "<div class=" +:+ dq +:+ "grid-cell" +:+ dq +:+ " style=" +:+ dq
    +:+ "left:" +:+ fmt_3f x +:+ "mm; top:" +:+ fmt_3f y
    +:+ "mm; width:" +:+ fmt_3f cell_w_mm +:+ "mm; height:" +:+ fmt_3f cell_h_mm
    +:+ "mm" +:+ dq +:+ "></div>".

(** Lines 118-125: the nested loops appending to [cells_html]. *)
Definition cells_html : list string :=
  for_range rows (fun r acc =>
    for_range columns (fun c acc => acc ++ [grid_cell r c]) acc) [].

(** Lines 126-128: one span per column, numbered from 1. *)
Definition top_num (j : nat) : string :=
  "<span class=" +:+ dq +:+ "grid-num" +:+ dq +:+ " style=" +:+ dq
    +:+ "left:" +:+ fmt_3f (nat_float j * cell_w_mm + 1)%float
    +:+ "mm; top:0.8mm" +:+ dq +:+ ">" +:+ str_of_nat (j + 1) +:+ "</span>".
Definition top_num_spans : list string := map top_num (seq 0 columns).

(** Lines 129-131: one span per row, numbered from 1. *)
Definition left_num (i : nat) : string :=
  "<span class=" +:+ dq +:+ "grid-num" +:+ dq +:+ " style=" +:+ dq
    +:+ "left:0.8mm; top:" +:+ fmt_3f (nat_float i * cell_h_mm + 1)%float
    +:+ "mm" +:+ dq +:+ ">" +:+ str_of_nat (i + 1) +:+ "</span>".
Definition left_num_spans : list string := map left_num (seq 0 rows).

(** [''.join(parts)]. *)
Definition join_empty (parts : list string) : string :=
  foldr String.append "" parts.

Definition top_nums : string := join_empty top_num_spans.
Definition left_nums : string := join_empty left_num_spans.

(** Line 132. *)
Definition grid_html : string :=
  "<div class=" +:+ dq +:+ "grid-overlay" +:+ dq +:+ ">"
    +:+ join_empty cells_html +:+ top_nums +:+ left_nums +:+ "</div>".
End Enumeration.

End Grid.

(** ** Strings: [in] and [str.replace] *)

Module Html.

(** [s.startswith(p)]. *)
Fixpoint startswith (p s : string) : bool :=
  match p, s with
  | EmptyString, _ => true
  | String a p', String b s' => Ascii.eqb a b && startswith p' s'
  | String _ _, EmptyString => false
  end.

(** [c in s] for a single character. *)
Fixpoint occurs (c : ascii) (s : string) : bool :=
  match s with
  | EmptyString => false
  | String b s' => Ascii.eqb c b || occurs c s'
  end.

(** [sub in s]. *)
Fixpoint contains (sub s : string) : bool :=
  startswith sub s ||
  match s with
  | EmptyString => false
  | String _ s' => contains sub s'
  end.

(** [s.replace(old, new)] for a non-empty [old]: a left-to-right scan that
    copies characters until [old] starts at the cursor, emits [new] there and
    resumes after the occurrence.  [skip] counts the characters of the
    current occurrence still to be passed over. *)
Fixpoint replace_from (old new : string) (skip : nat) (s : string) : string :=
  match s with
  | EmptyString => EmptyString
  | String c s' =>
      match skip with
      | S k => replace_from old new k s'
      | O =>
          if startswith old s
          then new +:+ replace_from old new (String.length old - 1) s'
          else String c (replace_from old new 0 s')
      end
  end.

Definition replace (old new s : string) : string := replace_from old new 0 s.

Definition body_close : string := "</body>".

(** Lines 134-138: the overlay markup goes before [</body>], or at the end. *)
Definition embed_grid (grid_html html : string) : string :=
  if contains body_close html
  then replace body_close (grid_html +:+ body_close) html
  else html +:+ grid_html.

(** [sep.join(parts)]. *)
Fixpoint join (sep : string) (parts : list string) : string :=
  match parts with
  | [] => EmptyString
  | [p] => p
  | p :: rest => p +:+ sep +:+ join sep rest
  end.

(** [s.split(sep)] for a non-empty [sep], by the same scan as [replace]. *)
Fixpoint split_from (sep : string) (skip : nat) (s : string) : list string :=
  match s with
  | EmptyString => [EmptyString]
  | String c s' =>
      match skip with
      | S k => split_from sep k s'
      | O =>
          if startswith sep s
          then EmptyString :: split_from sep (String.length sep - 1) s'
          else
            match split_from sep 0 s' with
            | p :: ps => String c p :: ps
            | [] => [String c EmptyString]
            end
      end
  end.

Definition split (sep s : string) : list string := split_from sep 0 s.

End Html.

(** ** Template selector *)

Module Template.

(** [open(path, 'r', encoding='utf-8').read()]: the text of the file, or the
    exception raised ([FileNotFoundError] when there is no such file). *)
Definition filesystem : Type := string -> res string.

(** [fix_html_layout(template_name)], lines 263-273. *)
Definition fix_html_layout (fs : filesystem) (template_name : string) : res string :=
  let html_file := template_name +:+ ".html" in
  match fs html_file with
  | Raise FileNotFoundError =>
      let alt :=
        if String.eqb template_name "contratto" then "contrato"
        else if String.eqb template_name "contrato" then "contratto"
        else template_name in
      let html_file := alt +:+ ".html" in
      fs html_file
  | r => r
  end.

End Template.

(** ** Image overlay compositor *)

Module Overlay.
Import PyFloat.

(** A Python number as the placement constants have it: an [int] or a
    [float], with the mixed arithmetic of the language. *)
Inductive num : Type :=
| Int (z : Z)
| Flt (x : float).

Definition to_float (n : num) : float :=
  match n with
  | Int z => float_of_Z z
  | Flt x => x
  end.

(** [n - 1]: an [int] stays an [int]. *)
Definition pred_num (n : num) : num :=
  match n with
  | Int z => Int (z - 1)
  | Flt x => Flt (x - 1)%float
  end.

(** [reportlab.lib.units]: [inch = 72.0], [cm = inch / 2.54], [mm = cm * 0.1]. *)
Definition inch : float := 72.
Definition cm : float := (inch / 2.54)%float.
Definition mm : float := (cm * 0.1)%float.

Definition cell_w_mm : float := Grid.cell_w_mm 25.
Definition cell_h_mm : float := Grid.cell_h_mm 35.

(** Lines 178-185. *)
Definition LOGO_SCALE : float := 0.3375.
Definition LOGO_COL : num := Int 14.
Definition LOGO_ROW : num := Int 8.
Definition SING1_SCALE : float := 0.175.
Definition SING1_COL : num := Int 14.
Definition SING1_ROW : num := Flt 15.5.

(** Lines 199 and 223: [(COL - 1) * cell_w_mm * _mm]. *)
Definition x_of_col (col : num) : float :=
  (to_float (pred_num col) * cell_w_mm * mm)%float.

(** Lines 200 and 224: [(page_h_mm - ROW * cell_h_mm) * _mm]. *)
Definition y_of_row (row : num) : float :=
  ((float_of_Z Grid.page_h_mm - to_float row * cell_h_mm) * mm)%float.

(** The mapping of the specification, section 4.2, in millimetres. *)
Definition cellToPoint (columnIndex rowIndex : float) : float * float :=
  ((columnIndex - 1) * cell_w_mm,
   float_of_Z Grid.page_h_mm - rowIndex * cell_h_mm)%float.

(** One [drawImage(path, x, y, width=, height=, mask='auto',
    preserveAspectRatio=True)] recorded on a canvas. *)
Record image_draw : Type := ImageDraw {
  image_path : string;
  at_x : float;
  at_y : float;
  draw_width : float;
  draw_height : float
}.

(** A ReportLab canvas: what has been drawn on its page so far. *)
Abbreviation canvas := (list image_draw).

(** A page of the base document, with what has been merged onto it. *)
Record page : Type := Page {
  mediabox : float * float;
  content : string;
  stamps : list image_draw
}.

(** The image collaborators: [PIL.Image.open(path)] gives the pixel size or
    raises; ReportLab's [drawImage] reads the file again and may raise. *)
Record assets : Type := Assets {
  image_open : string -> res (Z * Z);
  draw_image : string -> res unit
}.

(** What the function prints. *)
Inductive line : Type :=
| LogoAdded
| LogoFailed (e : exn)
| Sing1Added
| Sing1NoPage (pages : nat)
| Sing1Failed (e : exn)
| PdfFailed (e : exn).

(** Lines 189-195 and 214-220: the image is opened and its size in
    millimetres (at 96 dpi) is scaled. *)
Definition scaled_size (a : assets) (path : string) (scale : float)
  : res (float * float) :=
  let* size := image_open a path in
  let* wf := of_int (fst size) in
  let width_mm := (wf * 0.264583)%float in
  let* hf := of_int (snd size) in
  let height_mm := (hf * 0.264583)%float in
  Ok (width_mm * scale, height_mm * scale)%float.

(** The image drawn at a grid cell with a scale, lines 189-206 and 214-230;
    [slot] is the index into [overlay_buffers]. *)
Definition stamp (a : assets) (path : string) (scale : float) (col row : num)
    (slot : nat) (overlay_buffers : list canvas) : res (list canvas) :=
  let* scaled := scaled_size a path scale in
  let x := x_of_col col in
  let y := y_of_row row in
  match overlay_buffers !! slot with
  | None => Raise IndexError
  | Some c =>
      let* _ := draw_image a path in
      Ok (<[slot := c ++ [ImageDraw path x y (fst scaled * mm) (snd scaled * mm)]]>
            overlay_buffers)
  end.

(** Lines 187-209: the logo on page 1, any exception printed and dropped. *)
Definition stamp_logo (a : assets) (overlay_buffers : list canvas)
  : list canvas * list line :=
  match stamp a "logo.png" LOGO_SCALE LOGO_COL LOGO_ROW 0 overlay_buffers with
  | Ok bufs => (bufs, [LogoAdded])
  | Raise e => (overlay_buffers, [LogoFailed e])
  end.

(** Lines 211-235: the signature on page 3, when there is a page 3. *)
Definition stamp_sing1 (a : assets) (overlay_buffers : list canvas)
  : list canvas * list line :=
  if (3 <=? length overlay_buffers)%nat then
    match stamp a "sing_1.png" SING1_SCALE SING1_COL SING1_ROW 2 overlay_buffers with
    | Ok bufs => (bufs, [Sing1Added])
    | Raise e => (overlay_buffers, [Sing1Failed e])
    end
  else (overlay_buffers, [Sing1NoPage (length overlay_buffers)]).

(** [c.save()] read back by [PdfReader]: ReportLab emits the page only when
    something was drawn on it, so a blank canvas is a document of no pages. *)
Definition saved_pages (c : canvas) : list canvas :=
  match c with
  | [] => []
  | _ => [c]
  end.

(** [page.merge_page(overlay)]: the overlay is drawn on top; the box stays. *)
Definition merge_page (p : page) (overlay : canvas) : page :=
  Page (mediabox p) (content p) (stamps p ++ overlay).

(** Lines 244-247. *)
Definition merge_all (base_pages : list page) (overlay_readers : list (list canvas))
  : list page :=
  imap (fun i p =>
          match overlay_readers !! i with
          | Some (o :: _) => merge_page p o
          | _ => p
          end) base_pages.

(** Lines 169-247: from the pages of the base document to the pages handed
    to the writer, with the lines printed on the way. *)
Definition composite (a : assets) (base_pages : list page) : list page * list line :=
  let overlay_buffers : list canvas := replicate (length base_pages) [] in
  let '(overlay_buffers, out1) := stamp_logo a overlay_buffers in
  let '(overlay_buffers, out2) := stamp_sing1 a overlay_buffers in
  let overlay_readers := saved_pages <$> overlay_buffers in
  (merge_all base_pages overlay_readers, out1 ++ out2).

(** What becomes of one placement on a document of [n] pages: the drawing
    that lands on page [slot], or the exception its [try] block absorbs. *)
Definition placement (a : assets) (path : string) (scale : float) (col row : num)
    (slot n : nat) : res image_draw :=
  let* scaled := scaled_size a path scale in
  if (slot <? n)%nat then
    let* _ := draw_image a path in
    Ok (ImageDraw path (x_of_col col) (y_of_row row) (fst scaled * mm) (snd scaled * mm))
  else Raise IndexError.

Definition logo_placement (a : assets) (n : nat) : res image_draw :=
  placement a "logo.png" LOGO_SCALE LOGO_COL LOGO_ROW 0 n.

Definition sing1_placement (a : assets) (n : nat) : res image_draw :=
  placement a "sing_1.png" SING1_SCALE SING1_COL SING1_ROW 2 n.

(** An index is on the grid: an [int] between 1 and the number of cells, or
    any fractional position. *)
Definition on_grid (cells : Z) (n : num) : Prop :=
  match n with
  | Int z => 1 <= z <= cells
  | Flt _ => True
  end.

End Overlay.

(** ** The document pipeline and the API functions *)

Module Api.
Import PyFloat Money Overlay.

Inductive stylesheet : Type := page_css | footer_css | headings_css | grid_css.

(** The PDF collaborators: WeasyPrint's [HTML(string=html).write_pdf]
    (it may raise), PyPDF2's [PdfReader(...).pages] (it may raise) and
    [PdfWriter.write]. *)
Record pdf_lib : Type := PdfLib {
  write_pdf : string -> list stylesheet -> res string;
  read_pages : string -> res (list page);
  write_pages : list page -> string
}.

Record world : Type := World {
  fs : Template.filesystem;
  lib : pdf_lib;
  images : assets
}.

(** The values a request carries. *)
Inductive pyval : Type :=
| PStr (s : string)
| PInt (z : Z)
| PFloat (x : float).

(** [data[key]]. *)
Definition getitem (data : gmap string pyval) (key : string) : res pyval :=
  match data !! key with
  | Some v => Ok v
  | None => Raise (KeyError key)
  end.

(** The request types its fields ([amount] and [tan] numbers, [duration] an
    [int]); a value of another type is outside the embedding and is given
    [TypeError]. *)
Definition as_float (v : pyval) : res float :=
  match v with
  | PFloat x => Ok x
  | PInt z => of_int z
  | PStr _ => Raise TypeError
  end.

Definition as_int (v : pyval) : res Z :=
  match v with
  | PInt z => Ok z
  | _ => Raise TypeError
  end.

(** Lines 104-260.  [data] is received and not read. *)
Definition _generate_pdf_with_images (w : world) (html template_name : string)
    (data : gmap string pyval) : res string * list line :=
  let attempt : res string * list line :=
    let grid_html := Grid.grid_html 25 35 in
    let html := Html.embed_grid grid_html html in
    match write_pdf (lib w) html [page_css; footer_css; headings_css; grid_css] with
    | Raise e => (Raise e, [])
    | Ok pdf_bytes =>
        if String.eqb template_name "contrato" || String.eqb template_name "contratto" then
          match read_pages (lib w) pdf_bytes with
          | Raise e => (Raise e, [])
          | Ok base_pages =>
              let '(pages, out) := composite (images w) base_pages in
              (Ok (write_pages (lib w) pages), out)
          end
        else (Ok pdf_bytes, [])
    end in
  match attempt with
  | (Raise e, out) => (Raise e, out ++ [PdfFailed e])
  | returned => returned
  end.

(** Lines 51-52 and 89-90: the payment is computed when the key is absent,
    and stored in the caller's dictionary. *)
Definition ensure_payment (data : gmap string pyval) : res (gmap string pyval) :=
  match data !! "payment" with
  | Some _ => Ok data
  | None =>
      let* amount := getitem data "amount" in
      let* duration := getitem data "duration" in
      let* tan := getitem data "tan" in
      let* amount := as_float amount in
      let* duration := as_int duration in
      let* tan := as_float tan in
      let* p := monthly_payment amount duration tan in
      Ok (<["payment" := PFloat p]> data)
  end.

(** The body shared by the two functions that take a request: the result,
    what was printed, and the caller's dictionary as the call leaves it. *)
Definition generate_with_payment (w : world) (template_name : string)
    (data : gmap string pyval) : (res string * list line) * gmap string pyval :=
  match ensure_payment data with
  | Raise e => ((Raise e, []), data)
  | Ok data =>
      match Template.fix_html_layout (fs w) template_name with
      | Raise e => ((Raise e, []), data)
      | Ok html => (_generate_pdf_with_images w html template_name data, data)
      end
  end.

(** [generate_contratto_pdf(data)], lines 33-55. *)
Definition generate_contratto_pdf (w : world) (data : gmap string pyval) :=
  generate_with_payment w "contrato" data.

(** [generate_carta_pdf(data)], lines 72-93. *)
Definition generate_carta_pdf (w : world) (data : gmap string pyval) :=
  generate_with_payment w "carta" data.

(** [generate_garanzia_pdf(name)], lines 58-69. *)
Definition generate_garanzia_pdf (w : world) (name : string) : res string * list line :=
  match Template.fix_html_layout (fs w) "garanzia" with
  | Raise e => (Raise e, [])
  | Ok html => _generate_pdf_with_images w html "garanzia" {[ "name" := PStr name ]}
  end.

End Api.

(** ** Sample inputs *)

Module Samples.
Import Overlay Api.

(** A directory holding only [garanzia.html] and the old spelling of the
    contract. *)
Definition some_files : Template.filesystem := fun path =>
  if String.eqb path "garanzia.html" then Ok "<html><body>G</body></html>"
  else if String.eqb path "contratto.html" then Ok "<html><body>C</body></html>"
  else Raise FileNotFoundError.

(** Two A4 pages with nothing merged onto them yet. *)
Definition two_pages : list page :=
  [Page (595, 842)%float "page one" []; Page (595, 842)%float "page two" []].

(** A renderer whose bytes are the markup itself, a reader that finds the
    two pages, and a writer that records how many pages it was given. *)
Definition toy_lib : pdf_lib :=
  PdfLib (fun html _ => Ok html) (fun _ => Ok two_pages)
         (fun pages => pretty (N.of_nat (length pages))).

(** No [logo.png]; [sing_1.png] is 400x200 pixels. *)
Definition no_logo : assets :=
  Assets (fun path => if String.eqb path "sing_1.png" then Ok (400, 200)
                      else Raise FileNotFoundError)
         (fun _ => Ok tt).

Definition toy_world : world := World some_files toy_lib no_logo.

(** A request without the optional payment. *)
Definition request_without_payment : gmap string pyval :=
  {[ "name" := PStr "Mario Rossi"; "amount" := PFloat 15000;
     "duration" := PInt 36; "tan" := PFloat 7.86; "taeg" := PFloat 8.30 ]}.

Definition request_with_payment : gmap string pyval :=
  <[ "payment" := PFloat 469.08 ]> request_without_payment.

End Samples.

(** ** Formatting helpers *)

Module Format.
Import PyFloat.

(** Two digits, zero-padded. *)
Definition pad2 (n : Z) : string :=
  let d := pretty (Z.to_N n) in
  if n <? 10 then "0" +:+ d else d.

(** The [,] option of the format mini-language on a run of digits: a comma
    before every group of three counted from the right. *)
Fixpoint group3 (digits : string) : string :=
  match digits with
  | EmptyString => EmptyString
  | String a rest =>
      match rest with
      | EmptyString => String a EmptyString
      | String _ _ =>
          if (String.length rest mod 3 =? 0)%nat
          then String a ("," +:+ group3 rest)
          else String a (group3 rest)
      end
  end.

(** [f'{x:.2f}']: two digits after the point, correctly rounded, ties to
    even on the exact value of the double. *)
Definition fmt_2f (x : float) : string :=
  match Prim2SF x with
  | S754_nan => "nan"
  | S754_infinity s => if s then "-inf" else "inf"
  | S754_zero s => if s then "-0.00" else "0.00"
  | S754_finite s m e =>
      let h := scaled_half_even 100 m e in
      (if s then "-" else "") +:+ pretty (Z.to_N (h / 100)) +:+ "." +:+ pad2 (h mod 100)
  end.

(** [f'{x:,.2f}']: the same with the integer digits grouped. *)
Definition fmt_2f_grouped (x : float) : string :=
  match Prim2SF x with
  | S754_nan => "nan"
  | S754_infinity s => if s then "-inf" else "inf"
  | S754_zero s => if s then "-0.00" else "0.00"
  | S754_finite s m e =>
      let h := scaled_half_even 100 m e in
      (if s then "-" else "") +:+ group3 (pretty (Z.to_N (h / 100)))
        +:+ "." +:+ pad2 (h mod 100)
  end.

(** [format_money(amount)], lines 13-15. *)
Definition format_money (amount : float) : string :=
  Html.replace "," " " (fmt_2f_grouped amount).

(** What [datetime.now()] reads off the clock, as far as the format uses it. *)
Record date : Type := Date {
  year : Z;
  month : Z;
  day : Z
}.

(** [now.strftime("%d/%m/%Y")]: day and month on two digits, the year in
    full. *)
Definition strftime_dmY (now : date) : string :=
  pad2 (day now) +:+ "/" +:+ pad2 (month now) +:+ "/" +:+ pretty (Z.to_N (year now)).

(** [format_date()], lines 18-20, given the reading of the clock. *)
Definition format_date (now : date) : string := strftime_dmY now.

(** A decimal digit, and its value. *)
Definition is_digit (a : ascii) : bool :=
  let n := N_of_ascii a in (48 <=? n)%N && (n <=? 57)%N.

Definition digit_value (a : ascii) : Z := Z.of_N (N_of_ascii a) - 48.

Fixpoint digits_only (s : string) : bool :=
  match s with
  | EmptyString => true
  | String a s' => is_digit a && digits_only s'
  end.

(** The number a run of digits writes, most significant digit first. *)
Fixpoint digits_value_from (acc : Z) (s : string) : Z :=
  match s with
  | EmptyString => acc
  | String a s' => digits_value_from (10 * acc + digit_value a) s'
  end.

Definition digits_value (s : string) : Z := digits_value_from 0 s.

(** A date the calendar has, with a year of four digits. *)
Definition four_digit_date (d : date) : Prop :=
  1000 <= year d <= 9999 /\ 1 <= month d <= 12 /\ 1 <= day d <= 31.

End Format.

(** ** The command-line driver *)

Module Cli.
Import PyFloat Money Overlay Api.









End Cli.

(** ** Pieces of a document *)

Module Pieces.

(** The pieces of a document between its closing tags, with the markup put
    at the end of every piece that a tag follows. *)
Fixpoint before_each_tag (markup : string) (parts : list string) : list string :=
  match parts with
  | [] => []
  | [p] => [p]
  | p :: rest => (p +:+ markup) :: before_each_tag markup rest
  end.

End Pieces.

(** * Properties *)

Import PyFloat Money.

(** Splits a conjunction into its parts, leaving equalities alone. *)
Ltac conjuncts :=
  repeat match goal with
         | |- _ /\ _ => split
         end.

(** Closes a goal about concrete doubles by evaluation. *)
Ltac by_evaluation := vm_compute; reflexivity.

(** ** Financial calculator *)

Section Rounding.

(** Two doubles with different decodings are different. *)
Lemma float_neq (x y : float) : Prim2SF x <> Prim2SF y -> x <> y.
Proof. intros H ->. now apply H. Qed.

(** The two roundings of a scaled mantissa differ only on an exact tie
    whose lower neighbour is even. *)
Lemma scaled_half_even_or_tie (k : Z) (m : positive) (e : Z) :
  scaled_half_even k m e = scaled_half_up k m e
  \/ (e < 0 /\ 2 * ((k * Z.pos m) mod 2 ^ (- e)) = 2 ^ (- e)).
Proof.
  unfold scaled_half_even, scaled_half_up.
  destruct (0 <=? e) eqn:He; [now left|].
  apply Z.leb_gt in He.
  destruct (2 * ((k * Z.pos m) mod 2 ^ (- e)) ?= 2 ^ (- e)) eqn:Hc.
  - right. split; [exact He|]. now apply Z.compare_eq.
  - now left.
  - now left.
Qed.

Lemma round2_off_ties (x : float) :
  is_tie2 x = false -> round2 x = round2_half_up x.
Proof.
  unfold is_tie2, round2, round2_half_up.
  destruct (Prim2SF x) as [s|s| |s m e]; try reflexivity.
  intros Htie.
  destruct (scaled_half_even_or_tie 100 m e) as [->|[He Heq]]; [reflexivity|].
  destruct (0 <=? e) eqn:Hle; [apply Z.leb_le in Hle; lia|].
  apply Z.eqb_neq in Htie. contradiction.
Qed.

(** [round] as the language documents it: ties go to the even digit, and a
    decimal literal that is not a double rounds by its binary value. *)
Example round2_documented :
  round2 0.125 = 0.12%float /\ round2 0.375 = 0.38%float
  /\ round2 2.675 = 2.67%float /\ round2 2.5 = 2.5%float
  /\ round2 469.076 = 469.08%float.
Proof. conjuncts; by_evaluation. Qed.

(** The nearest double to a ratio of small integers is their float quotient. *)
Example nearest_ratio_is_division :
  nearest_ratio false 25012 100 = (25012 / 100)%float
  /\ nearest_ratio true 1 100 = (-1 / 100)%float.
Proof. conjuncts; by_evaluation. Qed.

(** With a zero rate the code takes the first branch: the quotient,
    rounded by [round]. *)
Lemma monthly_payment_zero_rate (amount : float) (months : Z) :
  monthly_payment amount months 0 =
  (let* m := of_int months in let* q := truediv amount m in Ok (round2 q)).
Proof. reflexivity. Qed.

(** Away from exact ties the code and the contract agree. *)
Lemma monthly_payment_zero_rate_off_ties (amount : float) (months : Z) (m q : float) :
  of_int months = Ok m -> truediv amount m = Ok q -> is_tie2 q = false ->
  monthly_payment amount months 0 = monthlyPayment_zero_rate_spec amount months.
Proof.
  intros Hm Hq Htie. rewrite monthly_payment_zero_rate.
  unfold monthlyPayment_zero_rate_spec. rewrite Hm. cbn. rewrite Hq. cbn.
  now rewrite round2_off_ties.
Qed.

End Rounding.

(** C1, at the failing input: a loan of 1000.50 over 4 months at rate 0.  The
    quotient 250.125 is a double and an exact tie; round-half-up gives 250.13,
    the code returns 250.12 because [round] sends ties to the even digit. *)
Theorem monthly_payment_zero_rate_tie :
  monthly_payment 1000.5 4 0 = Ok 250.12%float
  /\ monthlyPayment_zero_rate_spec 1000.5 4 = Ok 250.13%float
  /\ (1000.5 / 4 = 250.125)%float
  /\ is_tie2 250.125 = true
  /\ 250.12%float <> 250.13%float.
Proof.
  conjuncts; try by_evaluation.
  apply float_neq. vm_compute. discriminate.
Qed.

(** C2, at the failing input: 2000 over 1 month at 9.375 percent, so that the
    monthly rate is 2^-7 and the formula gives the double 2015.625 exactly.
    Round-half-up gives 2015.63, the code returns 2015.62.  The golden value
    of 15000 over 36 months at 7.86 percent is 469.08 under either rounding. *)
Theorem monthly_payment_annuity_tie :
  monthly_payment 2000 1 9.375 = Ok 2015.62%float
  /\ monthlyPayment_annuity_spec 2000 1 9.375 = Ok 2015.63%float
  /\ 2015.62%float <> 2015.63%float
  /\ monthly_payment 15000 36 7.86 = Ok 469.08%float
  /\ monthlyPayment_annuity_spec 15000 36 7.86 = Ok 469.08%float
  /\ hundredths_half_up (annuity_exact 15000 36 (786 # 100)) = 46908
  /\ hundredths_half_even (annuity_exact 15000 36 (786 # 100)) = 46908.
Proof.
  conjuncts; try by_evaluation.
  apply float_neq. vm_compute. discriminate.
Qed.

(** A rate so small that [1 + r] rounds to 1 is not zero, and the division
    by [den = 0.0] raises. *)
Example monthly_payment_tiny_rate :
  monthly_payment 15000 36 1e-15 = Raise ZeroDivisionError.
Proof. by_evaluation. Qed.

(** ** Grid coordinate mapper *)

Section Mapping.
Import Overlay.

(** On the grid, [int] subtraction followed by conversion is float
    subtraction. *)
Lemma int_pred_exact (z : Z) :
  1 <= z <= 25 -> float_of_Z (z - 1) = (float_of_Z z - 1)%float.
Proof.
  intros [Hlo Hhi].
  destruct z as [|p|p]; try lia.
  do 5 (try destruct p as [p|p|]); try lia; vm_compute; reflexivity.
Qed.

(** The grid constants of the overlay are those of the enumeration. *)
Lemma cell_size_values :
  cell_w_mm = (210 / 25)%float /\ cell_h_mm = (297 / 35)%float.
Proof. split; by_evaluation. Qed.

(** The first cell of the printed grid, as the f-string formats it. *)
Example first_cell_markup :
  Grid.fmt_3f cell_w_mm = "8.400" /\ Grid.fmt_3f cell_h_mm = "8.486"
  /\ Grid.fmt_3f (24 * cell_w_mm) = "201.600".
Proof. conjuncts; by_evaluation. Qed.

End Mapping.

(** C3: the origin the code computes for a column and a row on the grid is
    the point [((c - 1) * cellWidthMm, pageHeightMm - r * cellHeightMm)] of
    the specification, taken to device units by the factor [mm]; cell (1, 1)
    maps to [(0, pageHeightMm - cellHeightMm)] and cell (25, 35) to
    [((25 - 1) * cellWidthMm, 0)]. *)
Theorem cell_origin_mapping (c r : Overlay.num)
    (Hc : Overlay.on_grid 25 c) (Hr : Overlay.on_grid 35 r) :
  let point := Overlay.cellToPoint (Overlay.to_float c) (Overlay.to_float r) in
  Overlay.x_of_col c = (fst point * Overlay.mm)%float
  /\ Overlay.y_of_row r = (snd point * Overlay.mm)%float
  /\ point = ((Overlay.to_float c - 1) * Overlay.cell_w_mm,
              297 - Overlay.to_float r * Overlay.cell_h_mm)%float
  /\ Overlay.cellToPoint 1 1 = (0, 297 - Overlay.cell_h_mm)%float
  /\ Overlay.cellToPoint 25 35 = ((25 - 1) * Overlay.cell_w_mm, 0)%float.
Proof.
  cbv zeta. split; [|split; [|split; [|split]]].
  - unfold Overlay.x_of_col, Overlay.cellToPoint. cbn [fst].
    destruct c as [z|x]; cbn [Overlay.pred_num Overlay.to_float]; [|reflexivity].
    now rewrite (int_pred_exact z Hc).
  - reflexivity.
  - reflexivity.
  - vm_compute. reflexivity.
  - vm_compute. reflexivity.
Qed.

Lemma cell_origin_mapping_witness :
  Overlay.on_grid 25 Overlay.LOGO_COL /\ Overlay.on_grid 35 Overlay.SING1_ROW
  /\ Overlay.x_of_col Overlay.LOGO_COL
     = (fst (Overlay.cellToPoint 14 15.5) * Overlay.mm)%float
  /\ Overlay.y_of_row Overlay.SING1_ROW
     = (snd (Overlay.cellToPoint 14 15.5) * Overlay.mm)%float.
Proof.
  assert (Hc : Overlay.on_grid 25 Overlay.LOGO_COL) by (simpl; lia).
  assert (Hr : Overlay.on_grid 35 Overlay.SING1_ROW) by exact I.
  split; [exact Hc|]. split; [exact Hr|].
  pose proof (cell_origin_mapping Overlay.LOGO_COL Overlay.SING1_ROW Hc Hr) as H.
  cbv zeta in H. destruct H as (Hx & Hy & _). split; [exact Hx | exact Hy].
Defined.

(** ** Grid enumeration *)

Section Counting.
Import Grid.

Lemma foldl_append {A B : Type} (f : B -> A) (l : list B) (acc : list A) :
  foldl (fun s i => s ++ [f i]) acc l = acc ++ map f l.
Proof.
  revert acc. induction l as [|b l IH]; intros acc; cbn.
  - now rewrite app_nil_r.
  - rewrite IH. now rewrite <- app_assoc.
Qed.

Lemma for_range_append {A : Type} (f : nat -> A) (n : nat) (acc : list A) :
  for_range n (fun i acc => acc ++ [f i]) acc = acc ++ map f (seq 0 n).
Proof. unfold for_range. apply foldl_append. Qed.

Lemma nested_loops {A : Type} (g : nat -> nat -> A) (n : nat) (l : list nat)
    (acc : list A) :
  foldl (fun s r => for_range n (fun c acc => acc ++ [g r c]) s) acc l
  = acc ++ flat_map (fun r => map (g r) (seq 0 n)) l.
Proof.
  revert acc. induction l as [|r l IH]; intros acc.
  - cbn. now rewrite app_nil_r.
  - cbn [foldl flat_map]. rewrite for_range_append, IH.
    now rewrite <- app_assoc.
Qed.

(** The two loops enumerate the rows, and within a row the columns. *)
Lemma cells_html_nested (columns rows : nat) :
  cells_html columns rows =
  flat_map (fun r => map (grid_cell columns rows r) (seq 0 columns)) (seq 0 rows).
Proof.
  unfold cells_html. unfold for_range at 1.
  now rewrite (nested_loops (grid_cell columns rows)).
Qed.

Lemma length_rows_of_cells {A : Type} (g : nat -> nat -> A) (cols : list nat) (l : list nat) :
  length (flat_map (fun r => map (g r) cols) l) = (length l * length cols)%nat.
Proof.
  induction l as [|r l IH]; cbn; [reflexivity|].
  rewrite length_app, length_map, IH. reflexivity.
Qed.

End Counting.

(** C9: for a grid of at least one column and one row, the nested loops
    produce one cell descriptor per (row, column) pair, rows outermost,
    [columns * rows] in all, and the two label rows hold [columns] and [rows]
    descriptors, [columns + rows] in all. *)
Theorem grid_enumeration_counts (columns rows : nat)
    (Hcolumns : (1 <= columns)%nat) (Hrows : (1 <= rows)%nat) :
  Grid.cells_html columns rows
  = flat_map (fun r => map (Grid.grid_cell columns rows r) (seq 0 columns)) (seq 0 rows)
  /\ length (Grid.cells_html columns rows) = (columns * rows)%nat
  /\ length (Grid.top_num_spans columns) = columns
  /\ length (Grid.left_num_spans rows) = rows
  /\ length (Grid.top_num_spans columns ++ Grid.left_num_spans rows)
     = (columns + rows)%nat.
Proof.
  conjuncts.
  - apply cells_html_nested.
  - rewrite cells_html_nested, length_rows_of_cells, !length_seq.
    apply Nat.mul_comm.
  - unfold Grid.top_num_spans. now rewrite length_map, length_seq.
  - unfold Grid.left_num_spans. now rewrite length_map, length_seq.
  - unfold Grid.top_num_spans, Grid.left_num_spans.
    now rewrite length_app, !length_map, !length_seq.
Qed.

(** The grid of the source: 875 cells, 25 and 35 labels, 60 in all. *)
Lemma grid_enumeration_counts_witness :
  length (Grid.cells_html 25 35) = 875%nat
  /\ length (Grid.top_num_spans 25) = 25%nat
  /\ length (Grid.left_num_spans 35) = 35%nat
  /\ length (Grid.top_num_spans 25 ++ Grid.left_num_spans 35) = 60%nat.
Proof.
  assert (H25 : (1 <= 25)%nat) by lia.
  assert (H35 : (1 <= 35)%nat) by lia.
  destruct (grid_enumeration_counts 25 35 H25 H35) as (_ & Hcells & Htop & Hleft & Hsum).
  conjuncts; assumption.
Defined.

(** ** Embedding the grid markup *)

Section Replace.
Import Html.

(** A separator whose first character does not occur again in it cannot
    overlap a copy of itself; [</body>] is one. *)
Variables (c : ascii) (t : string).
Hypothesis fresh : occurs c t = false.
Let sep : string := String c t.

Lemma append_cons (a : ascii) (p s : string) : String a p +:+ s = String a (p +:+ s).
Proof. reflexivity. Qed.

Lemma append_empty (s : string) : EmptyString +:+ s = s.
Proof. reflexivity. Qed.

Lemma join_two (d p q : string) (rest : list string) :
  join d (p :: q :: rest) = p +:+ d +:+ join d (q :: rest).
Proof. reflexivity. Qed.

Lemma append_assoc (p q s : string) : (p +:+ q) +:+ s = p +:+ (q +:+ s).
Proof.
  induction p as [|a p IH]; [reflexivity|].
  rewrite !append_cons. now rewrite IH.
Qed.

Lemma startswith_self (p s : string) : startswith p (p +:+ s) = true.
Proof.
  induction p as [|a p IH]; [reflexivity|].
  rewrite append_cons. cbn [startswith]. now rewrite Ascii.eqb_refl, IH.
Qed.

Lemma startswith_split (p s : string) :
  startswith p s = true -> exists rest, s = p +:+ rest.
Proof.
  revert s. induction p as [|a p IH]; intros s H.
  - now exists s.
  - destruct s as [|b s]; cbn [startswith] in H; [discriminate|].
    apply andb_prop in H as [Hab Hp].
    apply Ascii.eqb_eq in Hab as ->.
    destruct (IH s Hp) as [rest ->]. now exists rest.
Qed.

Lemma startswith_extend (p s x : string) :
  startswith p s = true -> startswith p (s +:+ x) = true.
Proof.
  intros H. destruct (startswith_split p s H) as [rest ->].
  rewrite append_assoc. apply startswith_self.
Qed.

(** A word free of [c] that starts [u ++ c...] already starts [u]. *)
Lemma startswith_before_fresh (w u x : string) :
  occurs c w = false -> startswith w (u +:+ String c x) = true ->
  startswith w u = true.
Proof.
  revert u. induction w as [|a w IH]; intros u Hocc H; [reflexivity|].
  cbn [occurs] in Hocc. apply orb_false_elim in Hocc as [Hca Hw].
  destruct u as [|b u].
  - rewrite append_empty in H. cbn [startswith] in H.
    apply andb_prop in H as [Hac _].
    rewrite Ascii.eqb_sym in Hca. congruence.
  - rewrite append_cons in H. cbn [startswith] in H |- *.
    apply andb_prop in H as [Hab H]. rewrite Hab. cbn [andb]. now apply IH.
Qed.

Lemma contains_cons_false (a : ascii) (s : string) :
  contains sep (String a s) = false ->
  startswith sep (String a s) = false /\ contains sep s = false.
Proof. cbn [contains]. intros H. now apply orb_false_elim in H. Qed.

(** No occurrence starts inside a piece that is followed by the separator. *)
Lemma no_early_match (a : ascii) (p rest : string) :
  contains sep (String a p) = false ->
  startswith sep (String a p +:+ sep +:+ rest) = false.
Proof.
  intros H. apply contains_cons_false in H as [Hstart _].
  destruct (startswith sep (String a p +:+ sep +:+ rest)) eqn:E; [|reflexivity].
  exfalso. unfold sep in E, Hstart. rewrite !append_cons in E.
  cbn [startswith] in E, Hstart.
  apply andb_prop in E as [Hca E]. rewrite Hca in Hstart. cbn [andb] in Hstart.
  apply startswith_before_fresh in E; [congruence | exact fresh].
Qed.

Lemma contains_piece_sep (p rest : string) : contains sep (p +:+ sep +:+ rest) = true.
Proof.
  induction p as [|a p IH].
  - rewrite append_empty. unfold sep at 2. rewrite append_cons. cbn [contains].
    change (String c (t +:+ rest)) with (sep +:+ rest).
    now rewrite startswith_self.
  - rewrite append_cons. cbn [contains]. rewrite IH. apply orb_true_r.
Qed.

Variable new : string.

Lemma replace_skip (u rest : string) :
  replace_from sep new (String.length u) (u +:+ rest) = replace_from sep new 0 rest.
Proof.
  induction u as [|a u IH]; [reflexivity|].
  rewrite append_cons. cbn [String.length replace_from]. exact IH.
Qed.

Lemma replace_without (s : string) :
  contains sep s = false -> replace_from sep new 0 s = s.
Proof.
  induction s as [|a s IH]; intros H; [reflexivity|].
  apply contains_cons_false in H as [Hstart Hs].
  cbn [replace_from]. rewrite Hstart. now rewrite IH.
Qed.

Lemma replace_at_sep (rest : string) :
  replace_from sep new 0 (sep +:+ rest) = new +:+ replace_from sep new 0 rest.
Proof.
  unfold sep at 2. rewrite append_cons. cbn [replace_from].
  change (String c (t +:+ rest)) with (sep +:+ rest).
  rewrite startswith_self. unfold sep at 2. cbn [String.length].
  rewrite Nat.sub_1_r. cbn [Nat.pred]. now rewrite replace_skip.
Qed.

Lemma replace_piece (p rest : string) :
  contains sep p = false ->
  replace_from sep new 0 (p +:+ sep +:+ rest)
  = p +:+ new +:+ replace_from sep new 0 rest.
Proof.
  induction p as [|a p IH]; intros H.
  - rewrite !append_empty. apply replace_at_sep.
  - pose proof (no_early_match a p rest H) as Hno.
    apply contains_cons_false in H as [_ Hp].
    rewrite !append_cons in Hno |- *. cbn [replace_from]. rewrite Hno.
    now rewrite IH.
Qed.

Lemma replace_join (parts : list string) :
  parts <> [] -> Forall (fun p => contains sep p = false) parts ->
  replace sep new (join sep parts) = join new parts.
Proof.
  unfold replace. induction parts as [|p rest IH]; intros Hne Hall; [contradiction|].
  apply Forall_cons_1 in Hall as [Hp Hrest].
  destruct rest as [|q rest].
  - cbn [join]. now apply replace_without.
  - rewrite !join_two. rewrite replace_piece by exact Hp.
    rewrite IH; [reflexivity | discriminate | exact Hrest].
Qed.

Lemma split_from_nonempty (k : nat) (s : string) : split_from sep k s <> [].
Proof.
  revert k. induction s as [|d s IH]; intros k; cbn [split_from]; [discriminate|].
  destruct k as [|k]; [|apply IH].
  destruct (startswith sep (String d s)); [discriminate|].
  destruct (split_from sep 0 s); discriminate.
Qed.

Lemma join_after_empty (l : list string) :
  l <> [] -> join sep (EmptyString :: l) = sep +:+ join sep l.
Proof. destruct l as [|q l]; [contradiction|]. intros _. now rewrite join_two. Qed.

Lemma join_push (d : ascii) (p : string) (ps : list string) :
  join sep (String d p :: ps) = String d (join sep (p :: ps)).
Proof. destruct ps as [|q ps]; [reflexivity|]. now rewrite !join_two. Qed.

(** Joining the pieces gives back what the scan had left to read. *)
Lemma join_split_from (s : string) :
  forall (k : nat) (u rest : string),
    s = u +:+ rest -> String.length u = k ->
    join sep (split_from sep k s) = rest.
Proof.
  induction s as [|d s IH]; intros k u rest Hs Hk.
  - destruct u as [|a u]; [|discriminate]. rewrite append_empty in Hs. now subst.
  - cbn [split_from]. destruct k as [|k].
    + destruct u as [|a u]; [|discriminate]. rewrite append_empty in Hs. subst rest.
      destruct (startswith sep (String d s)) eqn:E.
      * destruct (startswith_split _ _ E) as [r Hr].
        unfold sep in Hr at 1. rewrite append_cons in Hr.
        injection Hr as -> ->.
        rewrite join_after_empty by apply split_from_nonempty.
        replace (String.length sep - 1)%nat with (String.length t)
          by (unfold sep; cbn [String.length]; lia).
        rewrite (IH (String.length t) t r eq_refl eq_refl).
        unfold sep. now rewrite append_cons.
      * pose proof (split_from_nonempty 0 s) as Hne.
        pose proof (IH 0%nat EmptyString s eq_refl eq_refl) as Hj.
        destruct (split_from sep 0 s) as [|p ps]; [contradiction|].
        now rewrite join_push, Hj.
    + destruct u as [|a u]; [discriminate|].
      rewrite append_cons in Hs. injection Hs as -> ->.
      cbn [String.length] in Hk. injection Hk as Hk.
      now apply (IH k u rest).
Qed.

Lemma join_split (s : string) : join sep (split sep s) = s.
Proof. now apply (join_split_from s 0%nat EmptyString s). Qed.

Lemma join_head (p : string) (ps : list string) :
  exists x, join sep (p :: ps) = p +:+ x.
Proof.
  destruct ps as [|q ps].
  - exists EmptyString. cbn [join]. induction p as [|a p IH]; [reflexivity|].
    rewrite append_cons. now rewrite <- IH.
  - eexists. now rewrite join_two.
Qed.

(** No piece of a split contains the separator. *)
Lemma split_from_free (s : string) :
  forall k, Forall (fun p => contains sep p = false) (split_from sep k s).
Proof.
  induction s as [|d s IH]; intros k; cbn [split_from].
  - constructor; [reflexivity | constructor].
  - destruct k as [|k]; [|apply IH].
    destruct (startswith sep (String d s)) eqn:E.
    + constructor; [reflexivity | apply IH].
    + pose proof (IH 0%nat) as Hall.
      pose proof (join_split_from s 0%nat EmptyString s eq_refl eq_refl) as Hj.
      pose proof (split_from_nonempty 0 s) as Hne.
      destruct (split_from sep 0 s) as [|p ps]; [contradiction|].
      apply Forall_cons_1 in Hall as [Hp Hps].
      constructor; [|exact Hps].
      cbn [contains]. rewrite Hp, orb_false_r.
      destruct (startswith sep (String d p)) eqn:E'; [|reflexivity].
      destruct (join_head p ps) as [x Hx]. rewrite Hx in Hj.
      apply (startswith_extend _ _ x) in E'.
      rewrite append_cons, Hj in E'. congruence.
Qed.

(** A string contains the separator exactly when it splits in two or more
    pieces. *)
Lemma contains_iff_pieces (s : string) :
  (contains sep s = false -> split sep s = [s])
  /\ (contains sep s = true -> (2 <= length (split sep s))%nat).
Proof.
  pose proof (join_split s) as Hj.
  pose proof (split_from_free s 0) as Hall. fold (split sep s) in Hall.
  pose proof (split_from_nonempty 0 s) as Hne. fold (split sep s) in Hne.
  destruct (split sep s) as [|p [|q ps]]; [contradiction| |].
  - cbn [join] in Hj. subst p. apply Forall_cons_1 in Hall as [Hp _].
    split; [reflexivity | congruence].
  - rewrite join_two in Hj. split.
    + intros H. rewrite <- Hj, contains_piece_sep in H. discriminate.
    + intros _. cbn [length]. lia.
Qed.

End Replace.

(** C10: every input splits at its [</body>] tags into pieces free of the
    tag.  When there is no tag the markup is appended at the very end; when
    there are tags, every one of them is kept and receives a copy of the
    markup immediately before it. *)
Theorem embed_grid_before_every_body_close (grid_html html : string) :
  let parts := Html.split Html.body_close html in
  html = Html.join Html.body_close parts
  /\ Forall (fun p => Html.contains Html.body_close p = false) parts
  /\ (Html.contains Html.body_close html = false ->
      parts = [html] /\ Html.embed_grid grid_html html = html +:+ grid_html)
  /\ (Html.contains Html.body_close html = true ->
      (2 <= length parts)%nat
      /\ Html.embed_grid grid_html html
         = Html.join (grid_html +:+ Html.body_close) parts).
Proof.
  cbv zeta.
  assert (Hfresh : Html.occurs "<" "/body>" = false) by reflexivity.
  pose proof (join_split "<" "/body>" html) as Hj.
  pose proof (split_from_free "<" "/body>" html 0) as Hall.
  pose proof (contains_iff_pieces "<" "/body>" html) as [Hnone Hsome].
  pose proof (split_from_nonempty "<" "/body>" 0 html) as Hne.
  change (String "<" "/body>") with Html.body_close in *.
  change (Html.split_from Html.body_close 0 html)
    with (Html.split Html.body_close html) in *.
  split; [now rewrite Hj|]. split; [exact Hall|]. split.
  - intros H. split; [now apply Hnone|].
    unfold Html.embed_grid. now rewrite H.
  - intros H. split; [now apply Hsome|].
    unfold Html.embed_grid. rewrite H.
    rewrite <- Hj at 1.
    apply (replace_join "<" "/body>" Hfresh); assumption.
Qed.

Lemma embed_grid_before_every_body_close_witness :
  Html.contains Html.body_close "<body>a</body>b</body>" = true
  /\ Html.embed_grid "GRID" "<body>a</body>b</body>"
     = Html.join ("GRID" +:+ Html.body_close)
         (Html.split Html.body_close "<body>a</body>b</body>").
Proof.
  pose proof (embed_grid_before_every_body_close "GRID" "<body>a</body>b</body>") as H.
  cbv zeta in H. destruct H as (_ & _ & _ & H).
  split; [reflexivity|]. apply H. reflexivity.
Defined.

(** Two closing tags receive two copies. *)
Example embed_grid_twice :
  Html.embed_grid "GRID" "<body>a</body>b</body>" = "<body>aGRID</body>bGRID</body>".
Proof. reflexivity. Qed.

(** ** Template selector *)

Section Lookup.
Import Template.

Lemma fallback_name_other (name : string) :
  name <> "contrato" -> name <> "contratto" ->
  (if String.eqb name "contratto" then "contrato"
   else if String.eqb name "contrato" then "contratto" else name) = name.
Proof.
  intros H1 H2.
  destruct (String.eqb_spec name "contratto"); [contradiction|].
  destruct (String.eqb_spec name "contrato"); [contradiction|reflexivity].
Qed.

Lemma fix_html_layout_missing (fs : filesystem) (name : string) :
  name <> "contrato" -> name <> "contratto" ->
  fs (name +:+ ".html") = Raise FileNotFoundError ->
  fix_html_layout fs name = Raise FileNotFoundError.
Proof.
  intros H1 H2 H. unfold fix_html_layout. rewrite H.
  now rewrite fallback_name_other, H.
Qed.

End Lookup.

(** C6: the file read is [<name>.html]; when it is missing, [contrato] falls
    back to [contratto.html] and [contratto] to [contrato.html]; for any other
    name the missing file is an error, any other exception is passed on
    without a retry, and the API functions then return that exception and no
    bytes. *)
Theorem fix_html_layout_lookup (w : Api.world) (name : string) :
  let fs := Api.fs w in
  (forall text, fs (name +:+ ".html") = Ok text ->
     Template.fix_html_layout fs name = Ok text)
  /\ (fs "contrato.html" = Raise FileNotFoundError ->
      Template.fix_html_layout fs "contrato" = fs "contratto.html")
  /\ (fs "contratto.html" = Raise FileNotFoundError ->
      Template.fix_html_layout fs "contratto" = fs "contrato.html")
  /\ (name <> "contrato" -> name <> "contratto" ->
      fs (name +:+ ".html") = Raise FileNotFoundError ->
      Template.fix_html_layout fs name = Raise FileNotFoundError)
  /\ (forall e, e <> FileNotFoundError -> fs (name +:+ ".html") = Raise e ->
      Template.fix_html_layout fs name = Raise e)
  /\ (fs "garanzia.html" = Raise FileNotFoundError ->
      forall who, Api.generate_garanzia_pdf w who = (Raise FileNotFoundError, []))
  /\ (fs "carta.html" = Raise FileNotFoundError ->
      forall data bytes, fst (fst (Api.generate_carta_pdf w data)) <> Ok bytes).
Proof.
  cbv zeta. split; [|split; [|split; [|split; [|split; [|split]]]]].
  - intros text H. unfold Template.fix_html_layout. now rewrite H.
  - intros H. unfold Template.fix_html_layout.
    change ("contrato" +:+ ".html") with "contrato.html". now rewrite H.
  - intros H. unfold Template.fix_html_layout.
    change ("contratto" +:+ ".html") with "contratto.html". now rewrite H.
  - apply fix_html_layout_missing.
  - intros e He H. unfold Template.fix_html_layout. rewrite H.
    destruct e; try reflexivity. contradiction.
  - intros H who. unfold Api.generate_garanzia_pdf.
    now rewrite (fix_html_layout_missing (Api.fs w) "garanzia").
  - intros H data bytes.
    assert (Hfix : Template.fix_html_layout (Api.fs w) "carta" = Raise FileNotFoundError).
    { now apply fix_html_layout_missing. }
    unfold Api.generate_carta_pdf, Api.generate_with_payment.
    destruct (Api.ensure_payment data) as [d|e]; [rewrite Hfix|];
      intros Hbytes; discriminate Hbytes.
Qed.

Lemma fix_html_layout_lookup_witness :
  Template.fix_html_layout Samples.some_files "carta" = Raise FileNotFoundError
  /\ Template.fix_html_layout Samples.some_files "contrato"
     = Ok "<html><body>C</body></html>".
Proof.
  pose proof (fix_html_layout_lookup Samples.toy_world "carta") as H.
  cbv zeta in H. destruct H as (_ & Hold & _ & Hmissing & _). split.
  - apply Hmissing; [discriminate | discriminate | reflexivity].
  - exact (Hold eq_refl).
Defined.

(** ** Variants without overlays *)

(** C7: for a template name other than [contrato] and [contratto] the bytes
    returned are those of the renderer, nothing is printed on success, and
    neither the PDF reader nor the image files are consulted; the guarantee
    letter is produced this way. *)
Theorem non_contract_returns_base_bytes (w : Api.world) (html name : string)
    (data : gmap string Api.pyval)
    (Hcontrato : name <> "contrato") (Hcontratto : name <> "contratto") :
  let rendered (html : string) :=
    match Api.write_pdf (Api.lib w) (Html.embed_grid (Grid.grid_html 25 35) html)
            [Api.page_css; Api.footer_css; Api.headings_css; Api.grid_css] with
    | Ok pdf_bytes => (Ok pdf_bytes, [])
    | Raise e => (Raise e, [Overlay.PdfFailed e])
    end in
  Api._generate_pdf_with_images w html name data = rendered html
  /\ (forall who,
       Api.generate_garanzia_pdf w who =
       match Template.fix_html_layout (Api.fs w) "garanzia" with
       | Ok template => rendered template
       | Raise e => (Raise e, [])
       end)
  /\ (forall data',
       Api.ensure_payment data = Ok data' ->
       Api.generate_carta_pdf w data =
       (match Template.fix_html_layout (Api.fs w) "carta" with
        | Ok template => rendered template
        | Raise e => (Raise e, [])
        end, data')).
Proof.
  assert (Hgen : forall h n d, n <> "contrato" -> n <> "contratto" ->
            Api._generate_pdf_with_images w h n d =
            match Api.write_pdf (Api.lib w) (Html.embed_grid (Grid.grid_html 25 35) h)
                    [Api.page_css; Api.footer_css; Api.headings_css; Api.grid_css] with
            | Ok pdf_bytes => (Ok pdf_bytes, [])
            | Raise e => (Raise e, [Overlay.PdfFailed e])
            end).
  { intros h n d H1 H2. unfold Api._generate_pdf_with_images.
    destruct (Api.write_pdf _ _ _); [|reflexivity].
    destruct (String.eqb_spec n "contrato"); [contradiction|].
    destruct (String.eqb_spec n "contratto"); [contradiction|]. reflexivity. }
  cbv zeta. split; [|split].
  - now apply Hgen.
  - intros who. unfold Api.generate_garanzia_pdf.
    destruct (Template.fix_html_layout _ _); [|reflexivity].
    apply Hgen; discriminate.
  - intros data' Hd. unfold Api.generate_carta_pdf, Api.generate_with_payment.
    rewrite Hd. destruct (Template.fix_html_layout _ _); [|reflexivity].
    f_equal. apply Hgen; discriminate.
Qed.

Lemma non_contract_returns_base_bytes_witness :
  Api.generate_garanzia_pdf Samples.toy_world "Mario Rossi"
  = (Ok (Html.embed_grid (Grid.grid_html 25 35) "<html><body>G</body></html>"), []).
Proof.
  pose proof (non_contract_returns_base_bytes Samples.toy_world "" "garanzia" ∅) as H.
  cbv zeta in H. destruct H as (_ & H & _); [discriminate | discriminate |].
  rewrite H. reflexivity.
Defined.

(** ** The caller's request *)

Section Request.
Import Api.

(** The dictionary after the call is the one [ensure_payment] produced, or
    the caller's own when computing the payment raised. *)
Lemma request_after_call (w : world) (name : string) (data : gmap string pyval) :
  snd (generate_with_payment w name data) =
  match ensure_payment data with
  | Ok data' => data'
  | Raise _ => data
  end.
Proof.
  unfold generate_with_payment.
  destruct (ensure_payment data) as [d|e]; [|reflexivity].
  now destruct (Template.fix_html_layout _ _).
Qed.

Lemma ensure_payment_present (data : gmap string pyval) (v : pyval) :
  data !! "payment" = Some v -> ensure_payment data = Ok data.
Proof. intros H. unfold ensure_payment. now rewrite H. Qed.

(** With the key absent, the result is the insertion of a computed payment or
    an exception. *)
Lemma ensure_payment_absent (data data' : gmap string pyval) :
  data !! "payment" = None -> ensure_payment data = Ok data' ->
  exists a d t amount duration tan p,
    data !! "amount" = Some a /\ data !! "duration" = Some d /\ data !! "tan" = Some t
    /\ as_float a = Ok amount /\ as_int d = Ok duration /\ as_float t = Ok tan
    /\ monthly_payment amount duration tan = Ok p
    /\ data' = <["payment" := PFloat p]> data.
Proof.
  intros Hnone. unfold ensure_payment, getitem. rewrite Hnone.
  destruct (data !! "amount") as [a|]; [|discriminate].
  destruct (data !! "duration") as [d|]; [|discriminate].
  destruct (data !! "tan") as [t|]; [|discriminate].
  cbn [res_bind].
  destruct (as_float a) as [amount|] eqn:Ea; [|discriminate]. cbn [res_bind].
  destruct (as_int d) as [duration|] eqn:Ed; [|discriminate]. cbn [res_bind].
  destruct (as_float t) as [tan|] eqn:Et; [|discriminate]. cbn [res_bind].
  destruct (monthly_payment amount duration tan) as [p|] eqn:Ep; [|discriminate].
  cbn [res_bind]. intros [= <-].
  exists a, d, t, amount, duration, tan, p. repeat (split; [reflexivity|]).
  split; [exact Ea|]. split; [exact Ed|]. split; [exact Et|]. split; [exact Ep|].
  reflexivity.
Qed.

End Request.




(** ** Image overlay compositor *)

Section Compositing.
Import Overlay.

Lemma merge_all_lookup (base : list page) (readers : list (list canvas)) (i : nat) :
  merge_all base readers !! i =
  (fun p => match readers !! i with
            | Some (o :: _) => merge_page p o
            | _ => p
            end) <$> base !! i.
Proof. unfold merge_all. apply list_lookup_imap. Qed.

Lemma merge_all_length (base : list page) (readers : list (list canvas)) :
  length (merge_all base readers) = length base.
Proof. apply length_imap. Qed.

(** Merging keeps the box and the base content of every page. *)
Lemma merge_all_keeps {A : Type} (f : page -> A) (base : list page)
    (readers : list (list canvas)) :
  (forall p o, f (merge_page p o) = f p) ->
  f <$> merge_all base readers = f <$> base.
Proof.
  intros Hf. apply list_eq. intros i.
  rewrite !list_lookup_fmap, merge_all_lookup.
  destruct (base !! i) as [p|]; [|reflexivity]. cbn.
  destruct (readers !! i) as [[|o l]|]; now rewrite ?Hf.
Qed.

(** A page passes through unchanged when its overlay has no page. *)
Lemma merge_all_pass_through (base : list page) (readers : list (list canvas))
    (i : nat) (p : page) :
  base !! i = Some p -> readers !! i = None \/ readers !! i = Some [] ->
  merge_all base readers !! i = Some p.
Proof.
  intros Hp Hr. rewrite merge_all_lookup, Hp. cbn.
  now destruct Hr as [-> | ->].
Qed.

Lemma placement_in_range (a : assets) (path : string) (scale : float)
    (col row : num) (slot n : nat) (d : image_draw) :
  placement a path scale col row slot n = Ok d -> (slot < n)%nat.
Proof.
  unfold placement. destruct (scaled_size a path scale); [|discriminate].
  cbn [res_bind]. destruct (Nat.ltb_spec slot n); [trivial | discriminate].
Qed.

(** Drawing on the buffers succeeds or fails as the placement does, and a
    success appends the drawing to the canvas of its slot. *)
Lemma stamp_as_placement (a : assets) (path : string) (scale : float)
    (col row : num) (slot : nat) (bufs : list canvas) :
  stamp a path scale col row slot bufs =
  match placement a path scale col row slot (length bufs), bufs !! slot with
  | Ok d, Some c => Ok (<[slot := c ++ [d]]> bufs)
  | Ok d, None => Raise IndexError
  | Raise e, _ => Raise e
  end.
Proof.
  unfold stamp, placement.
  destruct (scaled_size a path scale) as [scaled|e]; [|reflexivity].
  cbn [res_bind]. destruct (bufs !! slot) as [c|] eqn:E.
  - apply lookup_lt_Some in E.
    destruct (Nat.ltb_spec slot (length bufs)); [|lia].
    now destruct (draw_image a path).
  - apply lookup_ge_None in E.
    destruct (Nat.ltb_spec slot (length bufs)); [lia|reflexivity].
Qed.

(** Putting a blank canvas where there is a blank canvas, or no canvas,
    changes nothing. *)
Lemma insert_blank_again (l : list canvas) (i : nat) :
  (forall c, l !! i = Some c -> c = []) -> <[i := ([] : canvas)]> l = l.
Proof.
  intros H. destruct (l !! i) as [c|] eqn:E.
  - apply list_insert_id. now rewrite (H c eq_refl) in E.
  - apply list_insert_ge. now apply lookup_ge_None.
Qed.

(** The canvases after the two placements, and the lines printed. *)
Lemma composite_explicit (a : assets) (base : list page) :
  let n := length base in
  let c0 : canvas :=
    match logo_placement a n with Ok d => [d] | Raise _ => [] end in
  let c2 : canvas :=
    if (3 <=? n)%nat
    then match sing1_placement a n with Ok d => [d] | Raise _ => [] end
    else [] in
  let l1 := match logo_placement a n with
            | Ok _ => LogoAdded | Raise e => LogoFailed e end in
  let l2 := if (3 <=? n)%nat
            then match sing1_placement a n with
                 | Ok _ => Sing1Added | Raise e => Sing1Failed e end
            else Sing1NoPage n in
  composite a base =
  (merge_all base (saved_pages <$> <[2%nat := c2]> (<[0%nat := c0]> (replicate n []))),
   [l1; l2]).
Proof.
  cbv zeta. unfold composite, stamp_logo, stamp_sing1.
  rewrite stamp_as_placement, length_replicate.
  fold (logo_placement a (length base)).
  assert (Hlen : forall c : canvas,
            length (<[0%nat := c]> (replicate (length base) ([] : canvas))) = length base).
  { intros c. now rewrite length_insert, length_replicate. }
  destruct (logo_placement a (length base)) as [d|e] eqn:Elogo.
  - apply placement_in_range in Elogo as Hpos.
    rewrite lookup_replicate_2 by exact Hpos. cbn [app].
    rewrite Hlen. destruct (3 <=? length base)%nat eqn:E3.
    + apply Nat.leb_le in E3.
      rewrite stamp_as_placement, Hlen.
      fold (sing1_placement a (length base)).
      rewrite list_lookup_insert_ne by discriminate.
      rewrite lookup_replicate_2 by lia.
      destruct (sing1_placement a (length base)); [reflexivity|].
      rewrite insert_blank_again; [reflexivity|].
      intros c. rewrite list_lookup_insert_ne by discriminate.
      intros Hc. apply lookup_replicate_1 in Hc. tauto.
    + rewrite insert_blank_again; [reflexivity|].
      intros c Hc. apply lookup_lt_Some in Hc. rewrite Hlen in Hc.
      apply Nat.leb_gt in E3. lia.
  - rewrite length_replicate.
    rewrite (insert_blank_again (replicate (length base) []) 0)
      by (intros c Hc; apply lookup_replicate_1 in Hc; tauto).
    destruct (3 <=? length base)%nat eqn:E3.
    + apply Nat.leb_le in E3.
      rewrite stamp_as_placement, length_replicate.
      fold (sing1_placement a (length base)).
      rewrite lookup_replicate_2 by lia.
      destruct (sing1_placement a (length base)); [reflexivity|].
      rewrite insert_blank_again; [reflexivity|].
      intros c Hc. apply lookup_replicate_1 in Hc. tauto.
    + rewrite insert_blank_again; [reflexivity|].
      intros c Hc. apply lookup_replicate_1 in Hc. tauto.
Qed.

Lemma merged_lookup (base : list page) (bufs : list canvas) (i : nat)
    (p : page) (c : canvas) :
  base !! i = Some p -> bufs !! i = Some c ->
  merge_all base (saved_pages <$> bufs) !! i
  = Some (match c with [] => p | _ => merge_page p c end).
Proof.
  intros Hp Hc. rewrite merge_all_lookup, list_lookup_fmap, Hp, Hc.
  now destruct c.
Qed.

Lemma final_canvas_0 (n : nat) (c0 c2 : canvas) :
  (0 < n)%nat ->
  <[2%nat := c2]> (<[0%nat := c0]> (replicate n ([] : canvas))) !! 0%nat = Some c0.
Proof.
  intros H. rewrite list_lookup_insert_ne by discriminate.
  apply list_lookup_insert_eq. now rewrite length_replicate.
Qed.

Lemma final_canvas_2 (n : nat) (c0 c2 : canvas) :
  (2 < n)%nat ->
  <[2%nat := c2]> (<[0%nat := c0]> (replicate n ([] : canvas))) !! 2%nat = Some c2.
Proof.
  intros H. apply list_lookup_insert_eq.
  now rewrite length_insert, length_replicate.
Qed.

Lemma final_canvas_other (n i : nat) (c0 c2 : canvas) :
  i <> 0%nat -> i <> 2%nat -> (i < n)%nat ->
  <[2%nat := c2]> (<[0%nat := c0]> (replicate n ([] : canvas))) !! i = Some [].
Proof.
  intros H0 H2 H. rewrite !list_lookup_insert_ne by congruence.
  now apply lookup_replicate_2.
Qed.

(** What the contract branch returns once the renderer and the reader have
    succeeded. *)
Lemma generate_contract (w : Api.world) (html name : string)
    (data : gmap string Api.pyval) (pdf_bytes : string) (base_pages : list page) :
  name = "contrato" \/ name = "contratto" ->
  Api.write_pdf (Api.lib w) (Html.embed_grid (Grid.grid_html 25 35) html)
    [Api.page_css; Api.footer_css; Api.headings_css; Api.grid_css] = Ok pdf_bytes ->
  Api.read_pages (Api.lib w) pdf_bytes = Ok base_pages ->
  Api._generate_pdf_with_images w html name data
  = (Ok (Api.write_pages (Api.lib w) (fst (composite (Api.images w) base_pages))),
     snd (composite (Api.images w) base_pages)).
Proof.
  intros Hname Hrender Hread. unfold Api._generate_pdf_with_images.
  rewrite Hrender.
  assert (Hn : String.eqb name "contrato" || String.eqb name "contratto" = true).
  { destruct Hname as [-> | ->]; reflexivity. }
  rewrite Hn, Hread. now destruct (composite (Api.images w) base_pages).
Qed.

End Compositing.

(** C5: the pages handed to the writer are the base pages, as many and in
    the same order, each with its box and its base content; a page whose
    overlay has no content passes through unchanged. *)
Theorem overlay_preserves_pages (a : Overlay.assets) (base_pages : list Overlay.page)
    (overlay_readers : list (list (list Overlay.image_draw))) :
  let out := fst (Overlay.composite a base_pages) in
  length out = length base_pages
  /\ Overlay.mediabox <$> out = Overlay.mediabox <$> base_pages
  /\ Overlay.content <$> out = Overlay.content <$> base_pages
  /\ (forall i p, base_pages !! i = Some p -> i <> 0%nat -> i <> 2%nat ->
        out !! i = Some p)
  /\ length (Overlay.merge_all base_pages overlay_readers) = length base_pages
  /\ Overlay.mediabox <$> Overlay.merge_all base_pages overlay_readers
     = Overlay.mediabox <$> base_pages
  /\ Overlay.content <$> Overlay.merge_all base_pages overlay_readers
     = Overlay.content <$> base_pages
  /\ (forall i p, base_pages !! i = Some p ->
        overlay_readers !! i = None \/ overlay_readers !! i = Some [] ->
        Overlay.merge_all base_pages overlay_readers !! i = Some p).
Proof.
  cbv zeta. rewrite composite_explicit. cbn [fst].
  split; [apply merge_all_length|].
  split; [now apply merge_all_keeps|].
  split; [now apply merge_all_keeps|].
  split.
  { intros i p Hp H0 H2.
    rewrite (merged_lookup _ _ i p []); [reflexivity | exact Hp |].
    apply final_canvas_other; [exact H0 | exact H2 |].
    now apply lookup_lt_Some in Hp. }
  split; [apply merge_all_length|].
  split; [now apply merge_all_keeps|].
  split; [now apply merge_all_keeps|].
  intros i p. apply merge_all_pass_through.
Qed.

Lemma overlay_preserves_pages_witness :
  length (fst (Overlay.composite Samples.no_logo Samples.two_pages)) = 2%nat
  /\ fst (Overlay.composite Samples.no_logo Samples.two_pages) !! 1%nat
     = Samples.two_pages !! 1%nat.
Proof.
  pose proof (overlay_preserves_pages Samples.no_logo Samples.two_pages []) as H.
  cbv zeta in H. destruct H as (Hlen & _ & _ & Hpass & _).
  split; [exact Hlen|].
  apply Hpass; [reflexivity | discriminate | discriminate].
Defined.

(** C4: for [contrato] and [contratto], once the renderer and the reader have
    succeeded, a document with every base page is returned whatever happens
    to the placements.  On fewer than three pages the signature is skipped
    with a printed notice and without an exception.  A failing placement is
    printed with its exception and leaves its page as the base had it; the
    other placement is applied all the same. *)
Theorem contract_placement_failures_absorbed (w : Api.world) (html name : string)
    (data : gmap string Api.pyval) (pdf_bytes : string)
    (base_pages : list Overlay.page)
    (Hname : name = "contrato" \/ name = "contratto")
    (Hrender :
       Api.write_pdf (Api.lib w) (Html.embed_grid (Grid.grid_html 25 35) html)
         [Api.page_css; Api.footer_css; Api.headings_css; Api.grid_css]
       = Ok pdf_bytes)
    (Hread : Api.read_pages (Api.lib w) pdf_bytes = Ok base_pages) :
  let n := length base_pages in
  let logo := Overlay.logo_placement (Api.images w) n in
  let sing1 := Overlay.sing1_placement (Api.images w) n in
  exists out lines,
    Api._generate_pdf_with_images w html name data
    = (Ok (Api.write_pages (Api.lib w) out), lines)
    /\ length out = n
    /\ ((n < 3)%nat ->
        In (Overlay.Sing1NoPage n) lines
        /\ ~ In Overlay.Sing1Added lines
        /\ (forall e, ~ In (Overlay.Sing1Failed e) lines)
        /\ (forall i, i <> 0%nat -> out !! i = base_pages !! i))
    /\ (forall e, logo = Raise e ->
        In (Overlay.LogoFailed e) lines /\ out !! 0%nat = base_pages !! 0%nat)
    /\ (forall d, logo = Ok d ->
        In Overlay.LogoAdded lines
        /\ out !! 0%nat = (fun p => Overlay.merge_page p [d]) <$> base_pages !! 0%nat)
    /\ ((3 <= n)%nat -> forall e, sing1 = Raise e ->
        In (Overlay.Sing1Failed e) lines /\ out !! 2%nat = base_pages !! 2%nat)
    /\ ((3 <= n)%nat -> forall d, sing1 = Ok d ->
        In Overlay.Sing1Added lines
        /\ out !! 2%nat = (fun p => Overlay.merge_page p [d]) <$> base_pages !! 2%nat)
    /\ (forall i, i <> 0%nat -> i <> 2%nat -> out !! i = base_pages !! i).
Proof.
  cbv zeta.
  exists (fst (Overlay.composite (Api.images w) base_pages)),
         (snd (Overlay.composite (Api.images w) base_pages)).
  split; [now apply (generate_contract w html name data pdf_bytes)|].
  rewrite composite_explicit. cbn [fst snd].
  set (n := length base_pages).
  set (logo := Overlay.logo_placement (Api.images w) n).
  set (sing1 := Overlay.sing1_placement (Api.images w) n).
  set (c0 := match logo with Ok d => [d] | Raise _ => [] end).
  set (c2 := if (3 <=? n)%nat
             then match sing1 with Ok d => [d] | Raise _ => [] end else []).
  set (bufs := <[2%nat := c2]> (<[0%nat := c0]> (replicate n []))).
  assert (Hpage : forall i c, bufs !! i = Some c ->
            Overlay.merge_all base_pages (Overlay.saved_pages <$> bufs) !! i
            = (fun p => match c with [] => p | _ => Overlay.merge_page p c end)
                <$> base_pages !! i).
  { intros i c Hc. destruct (base_pages !! i) as [p|] eqn:Hp.
    - now rewrite (merged_lookup _ _ i p c).
    - now rewrite merge_all_lookup, Hp. }
  assert (Hout : forall i, (n <= i)%nat ->
            Overlay.merge_all base_pages (Overlay.saved_pages <$> bufs) !! i
            = base_pages !! i).
  { intros i Hi. rewrite merge_all_lookup.
    now rewrite (proj2 (lookup_ge_None base_pages i) Hi). }
  assert (Hother : forall i, i <> 0%nat -> i <> 2%nat ->
            Overlay.merge_all base_pages (Overlay.saved_pages <$> bufs) !! i
            = base_pages !! i).
  { intros i H0 H2. destruct (Nat.lt_ge_cases i n) as [Hi|Hi]; [|now apply Hout].
    rewrite (Hpage i []) by now apply final_canvas_other.
    now destruct (base_pages !! i). }
  assert (Hzero : Overlay.merge_all base_pages (Overlay.saved_pages <$> bufs) !! 0%nat
                  = (fun p => match c0 with [] => p | _ => Overlay.merge_page p c0 end)
                      <$> base_pages !! 0%nat).
  { destruct (Nat.lt_ge_cases 0 n) as [Hi|Hi].
    - apply Hpage. now apply final_canvas_0.
    - rewrite Hout by exact Hi.
      now rewrite (proj2 (lookup_ge_None base_pages 0) Hi). }
  assert (Htwo : (3 <= n)%nat ->
            Overlay.merge_all base_pages (Overlay.saved_pages <$> bufs) !! 2%nat
            = (fun p => match c2 with [] => p | _ => Overlay.merge_page p c2 end)
                <$> base_pages !! 2%nat).
  { intros Hn. apply Hpage. apply final_canvas_2. lia. }
  split; [apply merge_all_length|].
  split; [|split; [|split; [|split; [|split]]]].
  - intros Hn. apply Nat.ltb_lt in Hn as Hb.
    assert (E3 : (3 <=? n)%nat = false) by (apply Nat.leb_gt; lia).
    rewrite E3. split; [right; left; reflexivity|].
    split; [|split].
    + intros [H|[H|[]]]; [destruct logo; discriminate | discriminate].
    + intros e [H|[H|[]]]; [destruct logo; discriminate | discriminate].
    + intros i Hi. destruct (Nat.eq_dec i 2%nat) as [->|H2]; [|now apply Hother].
      apply Hout. lia.
  - intros e He. rewrite He. split; [left; reflexivity|].
    rewrite Hzero. subst c0. rewrite He. now destruct (base_pages !! 0%nat).
  - intros d Hd. rewrite Hd. split; [left; reflexivity|].
    rewrite Hzero. subst c0. now rewrite Hd.
  - intros Hn e He. apply Nat.leb_le in Hn as Hb. rewrite Hb, He.
    split; [right; left; reflexivity|].
    rewrite Htwo by exact Hn. subst c2. rewrite Hb, He.
    now destruct (base_pages !! 2%nat).
  - intros Hn d Hd. apply Nat.leb_le in Hn as Hb. rewrite Hb, Hd.
    split; [right; left; reflexivity|].
    rewrite Htwo by exact Hn. subst c2. now rewrite Hb, Hd.
  - exact Hother.
Qed.

Lemma contract_placement_failures_absorbed_witness :
  exists out lines,
    Api._generate_pdf_with_images Samples.toy_world "<html></html>" "contrato" ∅
    = (Ok (Api.write_pages Samples.toy_lib out), lines)
    /\ length out = 2%nat
    /\ In (Overlay.Sing1NoPage 2) lines
    /\ In (Overlay.LogoFailed FileNotFoundError) lines
    /\ out !! 0%nat = Samples.two_pages !! 0%nat.
Proof.
  destruct (contract_placement_failures_absorbed Samples.toy_world
              "<html></html>" "contrato" ∅
              (Html.embed_grid (Grid.grid_html 25 35) "<html></html>")
              Samples.two_pages (or_introl eq_refl) eq_refl eq_refl)
    as (out & lines & Hgen & Hlen & Hskip & Hlogo & _).
  exists out, lines.
  split; [exact Hgen|]. split; [exact Hlen|].
  split; [apply Hskip; cbn; lia|].
  apply (Hlogo FileNotFoundError). reflexivity.
Defined.


(** * Further properties of the code *)

(** ** The payment and the request *)

(** X1: a term of zero months raises [ZeroDivisionError] whatever the amount
    and the rate: with a zero rate the quotient divides by the term, and
    otherwise [(1 + r) ** 0 - 1] is zero. *)
Theorem monthly_payment_zero_term (amount annual_rate : float) :
  monthly_payment amount 0 annual_rate = Raise ZeroDivisionError.
Proof.
  unfold monthly_payment.
  destruct (PrimFloat.eqb (annual_rate / 100 / 12) 0); reflexivity.
Qed.

Section RequestErrors.
Import Api.

Lemma generate_with_payment_raises (w : world) (name : string)
    (data : gmap string pyval) (e : exn) :
  ensure_payment data = Raise e ->
  generate_with_payment w name data = ((Raise e, []), data).
Proof. intros H. unfold generate_with_payment. now rewrite H. Qed.

Lemma ensure_payment_has_payment (data data' : gmap string pyval) :
  ensure_payment data = Ok data' -> is_Some (data' !! "payment").
Proof.
  intros H. destruct (data !! "payment") as [v|] eqn:Hp.
  - rewrite (ensure_payment_present data v Hp) in H. injection H as <-. eauto.
  - destruct (ensure_payment_absent data data' Hp H)
      as (a & d & t & amount & duration & tan & p & _ & _ & _ & _ & _ & _ & _ & ->).
    rewrite lookup_insert_eq. eauto.
Qed.

End RequestErrors.

(** X2: when ['payment'] is absent, the first of ['amount'], ['duration'],
    ['tan'] that is missing is raised as [KeyError] by [generate_contratto_pdf]
    and [generate_carta_pdf] alike; nothing is printed, and the caller's
    dictionary is left as it was. *)
Theorem missing_field_raises_key_error (w : Api.world) (data : gmap string Api.pyval)
    (key : string)
    (Hpayment : data !! "payment" = None)
    (Hmissing :
       (key = "amount" /\ data !! "amount" = None)
       \/ (key = "duration" /\ is_Some (data !! "amount")
           /\ data !! "duration" = None)
       \/ (key = "tan" /\ is_Some (data !! "amount")
           /\ is_Some (data !! "duration") /\ data !! "tan" = None)) :
  Api.generate_contratto_pdf w data = ((Raise (KeyError key), []), data)
  /\ Api.generate_carta_pdf w data = ((Raise (KeyError key), []), data).
Proof.
  assert (H : Api.ensure_payment data = Raise (KeyError key)).
  { unfold Api.ensure_payment, Api.getitem. rewrite Hpayment.
    destruct Hmissing as [[-> Ha] | [(-> & [a Ha] & Hd) | (-> & [a Ha] & [d Hd] & Ht)]].
    - now rewrite Ha.
    - now rewrite Ha, Hd.
    - now rewrite Ha, Hd, Ht. }
  split; now apply generate_with_payment_raises.
Qed.

Lemma missing_field_raises_key_error_witness :
  Api.generate_contratto_pdf Samples.toy_world {[ "name" := Api.PStr "Mario Rossi" ]}
  = ((Raise (KeyError "amount"), []), {[ "name" := Api.PStr "Mario Rossi" ]}).
Proof.
  apply (missing_field_raises_key_error Samples.toy_world
           {[ "name" := Api.PStr "Mario Rossi" ]} "amount").
  - reflexivity.
  - left. split; reflexivity.
Defined.

(** X3: the document does not depend on the request.  The guarantee letter
    is the same for every name, and two requests that both carry
    ['payment'] give the same result and the same printed lines, for the
    contract and for the card letter: no field of the request reaches the
    renderer. *)
Theorem document_ignores_request (w : Api.world)
    (data1 data2 : gmap string Api.pyval) (who1 who2 : string)
    (H1 : is_Some (data1 !! "payment")) (H2 : is_Some (data2 !! "payment")) :
  Api.generate_garanzia_pdf w who1 = Api.generate_garanzia_pdf w who2
  /\ fst (Api.generate_contratto_pdf w data1) = fst (Api.generate_contratto_pdf w data2)
  /\ fst (Api.generate_carta_pdf w data1) = fst (Api.generate_carta_pdf w data2).
Proof.
  destruct H1 as [v1 H1], H2 as [v2 H2].
  assert (Hgen : forall name,
            fst (Api.generate_with_payment w name data1)
            = fst (Api.generate_with_payment w name data2)).
  { intros name. unfold Api.generate_with_payment.
    rewrite (ensure_payment_present data1 v1 H1), (ensure_payment_present data2 v2 H2).
    now destruct (Template.fix_html_layout (Api.fs w) name). }
  split; [reflexivity|]. split; apply Hgen.
Qed.

Lemma document_ignores_request_witness :
  fst (Api.generate_contratto_pdf Samples.toy_world Samples.request_with_payment)
  = fst (Api.generate_contratto_pdf Samples.toy_world
           {[ "payment" := Api.PStr "none" ]}).
Proof.
  apply (document_ignores_request Samples.toy_world Samples.request_with_payment
           {[ "payment" := Api.PStr "none" ]} "" "").
  - exists (Api.PFloat 469.08). vm_compute. reflexivity.
  - exists (Api.PStr "none"). reflexivity.
Defined.

(** X4: once a dictionary has been through a call it carries ['payment'],
    and from then on the payment is never computed again: a further call
    leaves the dictionary as it is, also after any other field has been
    given a new value. *)
Theorem payment_is_computed_once (data data' : gmap string Api.pyval)
    (Hfirst : Api.ensure_payment data = Ok data') :
  Api.ensure_payment data' = Ok data'
  /\ (forall w, snd (Api.generate_contratto_pdf w data') = data'
                /\ snd (Api.generate_carta_pdf w data') = data')
  /\ (forall key v, key <> "payment" ->
        Api.ensure_payment (<[key := v]> data') = Ok (<[key := v]> data')
        /\ <[key := v]> data' !! "payment" = data' !! "payment").
Proof.
  destruct (ensure_payment_has_payment data data' Hfirst) as [p Hp].
  assert (Hagain : Api.ensure_payment data' = Ok data')
    by exact (ensure_payment_present data' p Hp).
  split; [exact Hagain|]. split.
  - intros w. unfold Api.generate_contratto_pdf, Api.generate_carta_pdf.
    rewrite !request_after_call, Hagain. now split.
  - intros key v Hkey.
    assert (Hkeep : <[key := v]> data' !! "payment" = Some p)
      by now rewrite lookup_insert_ne.
    split; [exact (ensure_payment_present _ p Hkeep) | now rewrite Hkeep, Hp].
Qed.

Lemma payment_is_computed_once_witness :
  Api.ensure_payment
    (<["amount" := Api.PFloat 99]> (<["payment" := Api.PFloat 469.08]>
                                      Samples.request_without_payment))
  = Ok (<["amount" := Api.PFloat 99]> (<["payment" := Api.PFloat 469.08]>
                                         Samples.request_without_payment)).
Proof.
  assert (Hfirst : Api.ensure_payment Samples.request_without_payment
                   = Ok (<["payment" := Api.PFloat 469.08]>
                           Samples.request_without_payment))
    by (vm_compute; reflexivity).
  destruct (payment_is_computed_once _ _ Hfirst) as (_ & _ & Hstale).
  apply Hstale. discriminate.
Defined.

(** ** Template selector *)

Section Aliases.
Import Template.

Lemma fix_html_layout_contrato (fs : filesystem) :
  fix_html_layout fs "contrato" =
  match fs "contrato.html" with
  | Raise FileNotFoundError => fs "contratto.html"
  | r => r
  end.
Proof. reflexivity. Qed.

Lemma fix_html_layout_contratto (fs : filesystem) :
  fix_html_layout fs "contratto" =
  match fs "contratto.html" with
  | Raise FileNotFoundError => fs "contrato.html"
  | r => r
  end.
Proof. reflexivity. Qed.

End Aliases.

(** X5: when one of [contrato.html] and [contratto.html] is missing, the two
    names are interchangeable: both resolve to the same text or to the same
    exception. *)
Theorem alias_names_interchangeable (fs : Template.filesystem)
    (Hmissing : fs "contrato.html" = Raise FileNotFoundError
                \/ fs "contratto.html" = Raise FileNotFoundError) :
  Template.fix_html_layout fs "contrato" = Template.fix_html_layout fs "contratto".
Proof.
  rewrite fix_html_layout_contrato, fix_html_layout_contratto.
  destruct Hmissing as [H | H]; rewrite H.
  - now destruct (fs "contratto.html") as [text|[]].
  - now destruct (fs "contrato.html") as [text|[]].
Qed.

Lemma alias_names_interchangeable_witness :
  Template.fix_html_layout Samples.some_files "contrato"
  = Template.fix_html_layout Samples.some_files "contratto".
Proof.
  apply alias_names_interchangeable. left. reflexivity.
Defined.

(** ** The document pipeline *)


(** ** The grid *)

Section RowMajor.
Import Grid.

Lemma lookup_rows_of_cells {A : Type} (g : nat -> nat -> A) (n : nat)
    (l : list nat) (i c : nat) :
  (c < n)%nat ->
  flat_map (fun r => map (g r) (seq 0 n)) l !! (i * n + c)%nat
  = (fun r => g r c) <$> l !! i.
Proof.
  intros Hc. revert i. induction l as [|a l IH]; intros i; [reflexivity|].
  cbn [flat_map].
  assert (Hlen : length (map (g a) (seq 0 n)) = n)
    by now rewrite length_map, length_seq.
  destruct i as [|i].
  - cbn [Nat.mul Nat.add]. rewrite lookup_app_l by lia.
    change (map (g a) (seq 0 n)) with (g a <$> seq 0 n).
    rewrite list_lookup_fmap, lookup_seq_lt by exact Hc. reflexivity.
  - rewrite lookup_app_r by lia. rewrite Hlen.
    replace (S i * n + c - n)%nat with (i * n + c)%nat by lia.
    apply IH.
Qed.

End RowMajor.

(** X7: the cells are laid out row by row: the descriptor of row [r] and
    column [c] (both counted from 0) is entry [r * columns + c] of
    [cells_html], which is the numbering the source writes as
    [(row - 1) * 25 + col] for cells counted from 1. *)
Theorem cells_are_row_major (columns rows r c : nat)
    (Hr : (r < rows)%nat) (Hc : (c < columns)%nat) :
  Grid.cells_html columns rows !! (r * columns + c)%nat
  = Some (Grid.grid_cell columns rows r c).
Proof.
  rewrite cells_html_nested.
  rewrite (lookup_rows_of_cells (Grid.grid_cell columns rows)) by exact Hc.
  now rewrite lookup_seq_lt.
Qed.

Lemma cells_are_row_major_witness :
  Grid.cells_html 25 35 !! ((8 - 1) * 25 + (14 - 1))%nat
  = Some (Grid.grid_cell 25 35 7 13).
Proof.
  apply (cells_are_row_major 25 35 7 13); lia.
Defined.

(** ** Closing tags *)

Section Tags.
Import Html Pieces.

Variables (c : ascii) (t : string).
Hypothesis fresh : occurs c t = false.
Let sep : string := String c t.

Lemma append_empty_r (s : string) : s +:+ EmptyString = s.
Proof.
  induction s as [|a s IH]; [reflexivity|]. rewrite append_cons. now rewrite IH.
Qed.

Lemma split_skip (u rest : string) :
  split_from sep (String.length u) (u +:+ rest) = split_from sep 0 rest.
Proof.
  induction u as [|a u IH]; [reflexivity|].
  rewrite append_cons. cbn [String.length split_from]. exact IH.
Qed.

Lemma split_at_sep (rest : string) :
  split_from sep 0 (sep +:+ rest) = EmptyString :: split_from sep 0 rest.
Proof.
  unfold sep at 2. rewrite append_cons. cbn [split_from].
  change (String c (t +:+ rest)) with (sep +:+ rest).
  rewrite startswith_self.
  replace (String.length sep - 1)%nat with (String.length t)
    by (unfold sep; cbn [String.length]; lia).
  now rewrite split_skip.
Qed.

(** A piece free of the separator, followed by it, is the first piece. *)
Lemma split_piece (p rest : string) :
  contains sep p = false ->
  split_from sep 0 (p +:+ sep +:+ rest) = p :: split_from sep 0 rest.
Proof.
  induction p as [|a p IH]; intros H.
  - rewrite append_empty. apply split_at_sep.
  - pose proof (no_early_match c t fresh a p rest H) as Hno.
    apply (contains_cons_false c t) in H as [_ Hp].
    rewrite !append_cons in Hno |- *. cbn [split_from].
    fold sep in Hno. rewrite Hno. now rewrite IH.
Qed.

(** Splitting undoes joining, for pieces free of the separator. *)
Lemma split_join (parts : list string) :
  parts <> [] -> Forall (fun p => contains sep p = false) parts ->
  split sep (join sep parts) = parts.
Proof.
  induction parts as [|p rest IH]; intros Hne Hall; [contradiction|].
  apply Forall_cons_1 in Hall as [Hp Hrest].
  destruct rest as [|q rest].
  - cbn [join]. now apply (contains_iff_pieces c t).
  - rewrite join_two. unfold split. rewrite split_piece by exact Hp.
    fold (split sep (join sep (q :: rest))).
    rewrite IH; [reflexivity | discriminate | exact Hrest].
Qed.

(** Markup that is free of the separator and begins with its first
    character cannot complete a separator begun in the piece before it. *)
Lemma free_before_markup (p g : string) :
  contains sep p = false -> contains sep (String c g) = false ->
  contains sep (p +:+ String c g) = false.
Proof.
  intros Hp Hg. induction p as [|a p IH]; [exact Hg|].
  apply (contains_cons_false c t) in Hp as [Hstart Hp].
  rewrite append_cons. cbn [contains]. rewrite (IH Hp), orb_false_r.
  destruct (startswith sep (String a (p +:+ String c g))) eqn:E; [|reflexivity].
  exfalso. unfold sep in E, Hstart. cbn [startswith] in E, Hstart.
  apply andb_prop in E as [Hca E]. rewrite Hca in Hstart. cbn [andb] in Hstart.
  apply (startswith_before_fresh c) in E; [congruence | exact fresh].
Qed.

Variable markup : string.
Hypothesis markup_free : contains sep markup = false.
Hypothesis markup_opens : markup = EmptyString \/ startswith (String c EmptyString) markup = true.

Lemma free_with_markup (p : string) :
  contains sep p = false -> contains sep (p +:+ markup) = false.
Proof.
  intros Hp. destruct markup_opens as [-> | Hopen].
  - now rewrite append_empty_r.
  - destruct markup as [|a g]; [discriminate|].
    cbn [startswith] in Hopen. apply andb_prop in Hopen as [Hca _].
    apply Ascii.eqb_eq in Hca as <-. now apply free_before_markup.
Qed.

Lemma join_before_each_tag (parts : list string) :
  join (markup +:+ sep) parts = join sep (before_each_tag markup parts).
Proof.
  induction parts as [|p [|q rest] IH]; [reflexivity | reflexivity |].
  rewrite join_two. change (before_each_tag markup (p :: q :: rest))
    with ((p +:+ markup) :: before_each_tag markup (q :: rest)).
  rewrite IH.
  destruct (before_each_tag markup (q :: rest)) as [|q' rest'] eqn:E;
    [cbn [before_each_tag] in E; destruct rest; discriminate|].
  rewrite join_two. now rewrite !append_assoc.
Qed.

Lemma before_each_tag_length (parts : list string) :
  length (before_each_tag markup parts) = length parts.
Proof.
  induction parts as [|p [|q rest] IH]; [reflexivity | reflexivity |].
  change (before_each_tag markup (p :: q :: rest))
    with ((p +:+ markup) :: before_each_tag markup (q :: rest)).
  cbn [length]. now rewrite IH.
Qed.

Lemma before_each_tag_free (parts : list string) :
  Forall (fun p => contains sep p = false) parts ->
  Forall (fun p => contains sep p = false) (before_each_tag markup parts).
Proof.
  induction parts as [|p [|q rest] IH]; intros Hall; [constructor | exact Hall |].
  apply Forall_cons_1 in Hall as [Hp Hrest].
  change (before_each_tag markup (p :: q :: rest))
    with ((p +:+ markup) :: before_each_tag markup (q :: rest)).
  constructor; [now apply free_with_markup | now apply IH].
Qed.

End Tags.

(** X8: markup that holds no [</body>] and is empty or begins with [<]
    neither adds nor removes a closing tag when it is embedded: the pieces of
    the result between its tags are the pieces of the input, each one that a
    tag follows with the markup at its end, or the whole input with the
    markup at its end when there is no tag. *)
Theorem embed_grid_keeps_closing_tags (grid_html html : string)
    (Hfree : Html.contains Html.body_close grid_html = false)
    (Hopens : grid_html = EmptyString \/ Html.startswith "<" grid_html = true) :
  let parts := Html.split Html.body_close html in
  Html.split Html.body_close (Html.embed_grid grid_html html)
  = (if Html.contains Html.body_close html
     then Pieces.before_each_tag grid_html parts
     else [html +:+ grid_html])
  /\ length (Html.split Html.body_close (Html.embed_grid grid_html html))
     = length parts
  /\ Html.contains Html.body_close (Html.embed_grid grid_html html)
     = Html.contains Html.body_close html.
Proof.
  cbv zeta.
  assert (Hfresh : Html.occurs "<" "/body>" = false) by reflexivity.
  pose proof (join_split "<" "/body>" html) as Hj.
  pose proof (split_from_free "<" "/body>" html 0) as Hall.
  pose proof (contains_iff_pieces "<" "/body>" html) as [Hnone Hsome].
  pose proof (split_from_nonempty "<" "/body>" 0 html) as Hne.
  change (String "<" "/body>") with Html.body_close in *.
  change (Html.split_from Html.body_close 0 html)
    with (Html.split Html.body_close html) in *.
  assert (Hsplit :
    Html.split Html.body_close (Html.embed_grid grid_html html)
    = (if Html.contains Html.body_close html
       then Pieces.before_each_tag grid_html (Html.split Html.body_close html)
       else [html +:+ grid_html])).
  { unfold Html.embed_grid.
    destruct (Html.contains Html.body_close html) eqn:E.
    - rewrite <- Hj at 1.
      rewrite (replace_join "<" "/body>" Hfresh) by assumption.
      rewrite (join_before_each_tag "<" "/body>").
      apply (split_join "<" "/body>" Hfresh).
      + pose proof (before_each_tag_length grid_html (Html.split Html.body_close html)) as Hl.
        destruct (Pieces.before_each_tag grid_html (Html.split Html.body_close html));
          [|discriminate].
        destruct (Html.split Html.body_close html); [contradiction | discriminate].
      + now apply (before_each_tag_free "<" "/body>" Hfresh).
    - apply (contains_iff_pieces "<" "/body>").
      now apply (free_with_markup "<" "/body>" Hfresh). }
  split; [exact Hsplit|].
  assert (Hlen : length (Html.split Html.body_close (Html.embed_grid grid_html html))
                 = length (Html.split Html.body_close html)).
  { rewrite Hsplit. destruct (Html.contains Html.body_close html) eqn:E.
    - apply before_each_tag_length.
    - now rewrite (Hnone eq_refl). }
  split; [exact Hlen|].
  pose proof (contains_iff_pieces "<" "/body>" (Html.embed_grid grid_html html))
    as [Hnone' Hsome'].
  change (String "<" "/body>") with Html.body_close in *.
  destruct (Html.contains Html.body_close html) eqn:E;
    destruct (Html.contains Html.body_close (Html.embed_grid grid_html html)) eqn:E';
    try reflexivity.
  - specialize (Hnone' eq_refl). specialize (Hsome eq_refl).
    rewrite Hnone' in Hlen. cbn [length] in Hlen. lia.
  - specialize (Hsome' eq_refl). specialize (Hnone eq_refl).
    rewrite Hnone in Hlen. cbn [length] in Hlen. lia.
Qed.

(** The markup of the 25x35 grid is such markup. *)
Lemma embed_grid_keeps_closing_tags_witness :
  Html.contains Html.body_close (Grid.grid_html 25 35) = false
  /\ Html.startswith "<" (Grid.grid_html 25 35) = true
  /\ length (Html.split Html.body_close
               (Html.embed_grid (Grid.grid_html 25 35) "<body>a</body>b</body>"))
     = 3%nat.
Proof.
  assert (Hfree : Html.contains Html.body_close (Grid.grid_html 25 35) = false)
    by (vm_compute; reflexivity).
  assert (Hopen : Html.startswith "<" (Grid.grid_html 25 35) = true)
    by (vm_compute; reflexivity).
  split; [exact Hfree|]. split; [exact Hopen|].
  pose proof (embed_grid_keeps_closing_tags (Grid.grid_html 25 35)
                "<body>a</body>b</body>" Hfree (or_intror Hopen)) as H.
  cbv zeta in H. destruct H as (_ & Hlen & _). exact Hlen.
Defined.

(** ** Formatting helpers *)

Section Characters.
Import Html Format.

(** Replacing a single character goes character by character. *)
Lemma replace_char_cons (c a : ascii) (new s : string) :
  replace (String c EmptyString) new (String a s)
  = (if Ascii.eqb c a then new else String a EmptyString)
      +:+ replace (String c EmptyString) new s.
Proof.
  unfold replace. cbn [replace_from startswith String.length].
  destruct (Ascii.eqb c a); cbn [andb]; reflexivity.
Qed.

Lemma replace_char_app (c : ascii) (new u v : string) :
  replace (String c EmptyString) new (u +:+ v)
  = replace (String c EmptyString) new u +:+ replace (String c EmptyString) new v.
Proof.
  induction u as [|a u IH]; [reflexivity|].
  rewrite append_cons, !replace_char_cons, IH. now rewrite append_assoc.
Qed.

Lemma occurs_app (c : ascii) (u v : string) :
  occurs c (u +:+ v) = occurs c u || occurs c v.
Proof.
  induction u as [|a u IH]; [reflexivity|].
  rewrite append_cons. cbn [occurs]. rewrite IH. now rewrite orb_assoc.
Qed.

Lemma occurs_replace (c : ascii) (new s : string) :
  occurs c new = false -> occurs c (replace (String c EmptyString) new s) = false.
Proof.
  intros Hnew. induction s as [|a s IH]; [reflexivity|].
  rewrite replace_char_cons, occurs_app, IH, orb_false_r.
  destruct (Ascii.eqb c a) eqn:E; [exact Hnew|].
  cbn [occurs]. now rewrite E.
Qed.

Lemma replace_absent (c : ascii) (new s : string) :
  occurs c s = false -> replace (String c EmptyString) new s = s.
Proof.
  induction s as [|a s IH]; [reflexivity|].
  cbn [occurs]. intros H. apply orb_false_elim in H as [Hca Hs].
  rewrite replace_char_cons, Hca, (IH Hs). reflexivity.
Qed.

Lemma digit_is_not (c a : ascii) :
  is_digit c = false -> is_digit a = true -> Ascii.eqb c a = false.
Proof.
  intros Hc Ha. destruct (Ascii.eqb_spec c a) as [->|]; [congruence | reflexivity].
Qed.

Lemma digits_without (c : ascii) (s : string) :
  is_digit c = false -> digits_only s = true -> occurs c s = false.
Proof.
  intros Hc. induction s as [|a s IH]; [reflexivity|].
  cbn [digits_only occurs]. intros H. apply andb_prop in H as [Ha Hs].
  now rewrite (digit_is_not c a Hc Ha), (IH Hs).
Qed.

Lemma digits_only_app (u v : string) :
  digits_only (u +:+ v) = digits_only u && digits_only v.
Proof.
  induction u as [|a u IH]; [reflexivity|].
  rewrite append_cons. cbn [digits_only]. rewrite IH. now rewrite andb_assoc.
Qed.

Lemma pretty_N_char_digit (d : N) : is_digit (pretty_N_char d) = true.
Proof. unfold pretty_N_char. repeat case_match; reflexivity. Qed.

Lemma pretty_N_go_digits (x : N) :
  forall s, digits_only s = true -> digits_only (pretty_N_go x s) = true.
Proof.
  induction (N.lt_wf_0 x) as [x _ IH]. intros s Hs.
  destruct (decide (x = 0)%N) as [->|Hx]; [now rewrite pretty_N_go_0|].
  rewrite pretty_N_go_step by lia.
  apply IH; [apply N.div_lt; lia|].
  cbn [digits_only]. now rewrite pretty_N_char_digit, Hs.
Qed.

(** [str(n)] is a run of digits. *)
Lemma pretty_digits (n : N) : digits_only (pretty n) = true.
Proof.
  unfold pretty, pretty_N. destruct (decide (n = 0)%N); [reflexivity|].
  now apply pretty_N_go_digits.
Qed.

Lemma pad2_digits (n : Z) : digits_only (pad2 n) = true.
Proof.
  unfold pad2. destruct (n <? 10); [|apply pretty_digits].
  change ("0" +:+ pretty (Z.to_N n)) with (String "0" (pretty (Z.to_N n))).
  cbn [digits_only]. now rewrite pretty_digits.
Qed.

Lemma group3_cons (a : ascii) (rest : string) :
  group3 (String a rest)
  = String a ((match rest with
               | EmptyString => EmptyString
               | String _ _ =>
                   if (String.length rest mod 3 =? 0)%nat then "," else EmptyString
               end) +:+ group3 rest).
Proof.
  cbn [group3]. destruct rest as [|b rest]; [reflexivity|].
  now destruct (String.length (String b rest) mod 3 =? 0)%nat.
Qed.

(** Turning the commas of grouped digits into spaces and dropping the spaces
    gives the digits back. *)
Lemma ungroup3 (ds : string) :
  digits_only ds = true ->
  replace " " EmptyString (replace "," " " (group3 ds)) = ds.
Proof.
  induction ds as [|a rest IH]; [reflexivity|].
  cbn [digits_only]. intros H. apply andb_prop in H as [Ha Hrest].
  rewrite group3_cons, replace_char_cons.
  rewrite (digit_is_not "," a) by (reflexivity || exact Ha).
  rewrite append_cons, append_empty, replace_char_cons.
  rewrite (digit_is_not " " a) by (reflexivity || exact Ha).
  rewrite append_cons, append_empty, !replace_char_app, (IH Hrest).
  f_equal.
  destruct rest as [|b rest]; [reflexivity|].
  now destruct (String.length (String b rest) mod 3 =? 0)%nat.
Qed.

End Characters.

(** X9: [format_money] never returns a comma, whatever the amount (a NaN or
    an infinity included): the thousands separator is always a space. *)
Theorem format_money_has_no_comma (amount : float) :
  Html.occurs "," (Format.format_money amount) = false.
Proof. unfold Format.format_money. now apply occurs_replace. Qed.

(** X10: [format_money] differs from the plain two-decimal rendering
    [f'{amount:.2f}'] by its spaces only: dropping the spaces gives that
    rendering back, so the amount can be read off the result. *)
Theorem format_money_without_spaces (amount : float) :
  Html.replace " " EmptyString (Format.format_money amount) = Format.fmt_2f amount.
Proof.
  unfold Format.format_money, Format.fmt_2f_grouped, Format.fmt_2f.
  destruct (Prim2SF amount) as [s|s| |s m e]; try (destruct s; reflexivity);
    try reflexivity.
  set (ds := pretty (Z.to_N (scaled_half_even 100 m e / 100))).
  set (fr := Format.pad2 (scaled_half_even 100 m e mod 100)).
  assert (Hds : Format.digits_only ds = true) by apply pretty_digits.
  assert (Hfr : Format.digits_only fr = true) by apply pad2_digits.
  rewrite !replace_char_app. rewrite (ungroup3 ds Hds).
  rewrite (replace_absent "," " " fr) by now apply digits_without.
  rewrite (replace_absent " " EmptyString fr) by now apply digits_without.
  now destruct s.
Qed.

Section Dates.
Import Format.

(** A check that holds on every integer of a range holds on each of them. *)
Lemma checked_on_range (P : Z -> bool) (lo n : Z) :
  forallb P (seqZ lo n) = true -> forall z, lo <= z < lo + n -> P z = true.
Proof.
  intros H z Hz. rewrite forallb_forall in H. apply H.
  apply list_elem_of_In, elem_of_seqZ. exact Hz.
Qed.

Lemma pad2_checked :
  forallb (fun z => match pad2 z with
                    | String a (String b EmptyString) =>
                        10 * digit_value a + digit_value b =? z
                    | _ => false
                    end) (seqZ 0 100) = true.
Proof. by_evaluation. Qed.

Lemma year_checked :
  forallb (fun z => (String.length (pretty (Z.to_N z)) =? 4)%nat) (seqZ 1000 9000)
  = true.
Proof. by_evaluation. Qed.

(** Below one hundred, [pad2] writes two characters that read back as the
    number. *)
Lemma pad2_two_digits (n : Z) :
  0 <= n < 100 ->
  exists a b, pad2 n = String a (String b EmptyString)
              /\ 10 * digit_value a + digit_value b = n.
Proof.
  intros Hn.
  pose proof (checked_on_range _ 0 100 pad2_checked n Hn) as H.
  cbv beta in H. destruct (pad2 n) as [|a [|b [|]]]; try discriminate.
  exists a, b. split; [reflexivity | now apply Z.eqb_eq].
Qed.

(** A year of four digits is written on four characters. *)
Lemma year_four_chars (y : Z) :
  1000 <= y <= 9999 -> String.length (pretty (Z.to_N y)) = 4%nat.
Proof.
  intros Hy.
  assert (Hrange : 1000 <= y < 1000 + 9000) by lia.
  pose proof (checked_on_range _ 1000 9000 year_checked y Hrange) as H.
  now apply Nat.eqb_eq in H.
Qed.

End Dates.

(** X11: for a calendar date with a year of four digits, [format_date] gives
    ten characters, [dd/mm/yyyy] with the slashes third and sixth, and
    different dates give different strings. *)
Theorem format_date_shape (d : Format.date) (Hd : Format.four_digit_date d) :
  String.length (Format.format_date d) = 10%nat
  /\ String.get 2 (Format.format_date d) = Some "/"%char
  /\ String.get 5 (Format.format_date d) = Some "/"%char
  /\ (forall d', Format.four_digit_date d' ->
        Format.format_date d' = Format.format_date d -> d' = d).
Proof.
  destruct d as [y m dd]. destruct Hd as (Hy & Hm & Hdd). cbn in Hy, Hm, Hdd.
  unfold Format.format_date, Format.strftime_dmY. cbn [Format.day Format.month Format.year].
  destruct (pad2_two_digits dd ltac:(lia)) as (a & b & -> & Hab).
  destruct (pad2_two_digits m ltac:(lia)) as (a' & b' & -> & Hab').
  pose proof (year_four_chars y Hy) as Hlen.
  rewrite !append_cons, !append_empty.
  conjuncts.
  - cbn [String.length]. now rewrite Hlen.
  - reflexivity.
  - reflexivity.
  - intros [y2 m2 d2] (Hy2 & Hm2 & Hd2). cbn in Hy2, Hm2, Hd2.
    unfold Format.format_date, Format.strftime_dmY.
    cbn [Format.day Format.month Format.year].
    destruct (pad2_two_digits d2 ltac:(lia)) as (c & e & -> & Hce).
    destruct (pad2_two_digits m2 ltac:(lia)) as (c' & e' & -> & Hce').
    rewrite !append_cons, !append_empty.
    intros [= -> -> -> -> Hyear].
    apply (inj pretty) in Hyear.
    assert (y2 = y) by lia. congruence.
Qed.

Lemma format_date_shape_witness :
  Format.format_date (Format.Date 2024 3 7) = "07/03/2024"
  /\ String.length (Format.format_date (Format.Date 2024 3 7)) = 10%nat.
Proof.
  split; [reflexivity|].
  apply (format_date_shape (Format.Date 2024 3 7)).
  unfold Format.four_digit_date. cbn. lia.
Defined.

(** ** The command-line driver *)

Section Driver.
Import Api Cli.





End Driver.


(** ** What the compositor and the contract consult *)

Section Consulted.
Import Overlay.

Lemma placement_same_assets (a a' : assets) (path : string) (scale : float)
    (col row : num) (slot n : nat) :
  image_open a path = image_open a' path ->
  draw_image a path = draw_image a' path ->
  placement a path scale col row slot n = placement a' path scale col row slot n.
Proof.
  intros Ho Hd. unfold placement, scaled_size. now rewrite Ho, Hd.
Qed.

End Consulted.

(** X13: the compositor consults two image files and no other.  Two sets of
    assets that agree on [logo.png], and on [sing_1.png] when the document
    has three pages or more, give the same pages and the same printed lines;
    on fewer than three pages the signature file is not even opened. *)
Theorem composite_consults_two_images (a a' : Overlay.assets)
    (base_pages : list Overlay.page)
    (Hlogo_open : Overlay.image_open a "logo.png" = Overlay.image_open a' "logo.png")
    (Hlogo_draw : Overlay.draw_image a "logo.png" = Overlay.draw_image a' "logo.png")
    (Hsing1 : (3 <= length base_pages)%nat ->
              Overlay.image_open a "sing_1.png" = Overlay.image_open a' "sing_1.png"
              /\ Overlay.draw_image a "sing_1.png" = Overlay.draw_image a' "sing_1.png") :
  Overlay.composite a base_pages = Overlay.composite a' base_pages.
Proof.
  rewrite !composite_explicit. cbv zeta.
  assert (Hl : Overlay.logo_placement a (length base_pages)
               = Overlay.logo_placement a' (length base_pages))
    by now apply placement_same_assets.
  rewrite Hl.
  destruct (3 <=? length base_pages)%nat eqn:E; [|reflexivity].
  apply Nat.leb_le in E. destruct (Hsing1 E) as [Ho Hd].
  assert (Hs : Overlay.sing1_placement a (length base_pages)
               = Overlay.sing1_placement a' (length base_pages))
    by now apply placement_same_assets.
  now rewrite Hs.
Qed.

Lemma composite_consults_two_images_witness :
  Overlay.composite Samples.no_logo Samples.two_pages
  = Overlay.composite
      (Overlay.Assets (fun _ => Raise FileNotFoundError) (fun _ => Ok tt))
      Samples.two_pages.
Proof.
  apply composite_consults_two_images.
  - reflexivity.
  - reflexivity.
  - cbn. lia.
Defined.

(** X14: the fallback is invisible in the result.  A contract generated from
    [contratto.html], [contrato.html] being missing, is the contract that a
    directory holding the same text as [contrato.html] gives: same result,
    same printed lines, same dictionary. *)
Theorem contract_fallback_is_transparent (files files' : Template.filesystem)
    (lib : Api.pdf_lib) (images : Overlay.assets) (text : string)
    (data : gmap string Api.pyval)
    (Hmissing : files "contrato.html" = Raise FileNotFoundError)
    (Hold : files "contratto.html" = Ok text)
    (Hnew : files' "contrato.html" = Ok text) :
  Api.generate_contratto_pdf (Api.World files lib images) data
  = Api.generate_contratto_pdf (Api.World files' lib images) data.
Proof.
  unfold Api.generate_contratto_pdf, Api.generate_with_payment.
  destruct (Api.ensure_payment data) as [data'|e]; [|reflexivity].
  cbn [Api.fs]. rewrite !fix_html_layout_contrato, Hmissing, Hold, Hnew.
  reflexivity.
Qed.

Lemma contract_fallback_is_transparent_witness :
  Api.generate_contratto_pdf Samples.toy_world Samples.request_with_payment
  = Api.generate_contratto_pdf
      (Api.World (fun _ => Ok "<html><body>C</body></html>")
         Samples.toy_lib Samples.no_logo)
      Samples.request_with_payment.
Proof.
  apply (contract_fallback_is_transparent Samples.some_files
           (fun _ => Ok "<html><body>C</body></html>") Samples.toy_lib
           Samples.no_logo "<html><body>C</body></html>");
    reflexivity.
Defined.
